(** * BaseNodeModel: the node data model of the diagram engine

    A shallow embedding of [packages/core/src/model/node/BaseNodeModel.ts].

    Conventions of the embedding.
    - A JavaScript [number] is modelled as an integer of [Z] with exact
      arithmetic; rounding of doubles is outside the model.
    - An object that the source mutates in place ([this]) is a record value
      threaded through the operations: every method takes the node and
      returns the node after the call (explicit state passing).
    - A thrown [TypeError] is the [None] of an [option] result.
    - Calls into collaborators that are not part of this file of the
      repository (uuid generation, the event centre, the matrix helper, the
      trigonometric functions) are parameters or explicit outputs. *)

From Stdlib Require Import ZArith String List Bool Lia DecimalString DecimalNat.
From stdpp Require Import base option list gmap strings.

Open Scope string_scope.
Open Scope Z_scope.

(** ** Data model *)

(** [LogicFlow.LabelType]: one text record bound to the node. *)
Record LabelType := mkLabel {
  label_id : string;
  label_relateId : string;
  label_value : string;
  label_content : string;
  label_x : Z;
  label_y : Z;
  label_draggable : bool;
  label_editable : bool;
  label_isFocus : bool;
}.

(** The field [text : LabelType | LabelType[]].  [TextOther] stands for an
    object that is neither a label record nor an array: the source can
    produce one when the shape of [text] and [labelConfig.multiple]
    disagree (an array spread into an object literal). *)
Inductive TextField :=
| TextSingle (t : LabelType)
| TextList (ts : list LabelType)
| TextOther.

(** [LogicFlow.LabelConfig]; an absent [multiple] is [false] (both are
    falsy, and [addText] defaults it to [false]), an absent or null [max] is
    [None] ([isNil]). *)
Record LabelConfig := mkLabelConfig {
  multiple : bool;
  max : option Z;
  verticle : bool;
}.

(** Values of the free-form property map.  [PConf] is an object carrying a
    label configuration, [PObj] any other object (given by its JSON text);
    the remaining constructors are primitives. *)
Inductive PValue :=
| PNull
| PBool (b : bool)
| PNum (n : Z)
| PStr (s : string)
| PConf (c : LabelConfig)
| PObj (json : string).

Definition is_object (v : PValue) : bool :=
  match v with PConf _ | PObj _ => true | _ => false end.

(** A 2-D affine matrix [[a b 0] [c d 0] [e f 1]], acting on row vectors. *)
Record Matrix := mkMatrix {
  m_a : Z; m_b : Z; m_c : Z; m_d : Z; m_e : Z; m_f : Z;
}.

(** [Model.AnchorConfig] as far as the anchor resolver reads and writes it:
    an optional id (absent is [None]) and a point. *)
Record AnchorConfig := mkAnchor {
  anchor_id : option string;
  anchor_x : Z;
  anchor_y : Z;
}.

(** [BaseNodeModel.AnchorsOffsetItem = PointTuple | Point]. *)
Inductive AnchorsOffsetItem :=
| OffsetTuple (dx dy : Z)
| OffsetRecord (a : AnchorConfig).

(** The data fields of a node: what a rule receives when it is handed the
    node.  [transform] is [None] until the [rotate] setter first runs (the
    field is declared without an initial value). *)
Record NodeData := mkNodeData {
  id : string;
  type : string;
  x : Z;
  y : Z;
  width : Z;
  height : Z;
  rotate_ : Z;
  transform : option Matrix;
  text : TextField;
  properties : gmap string PValue;
  anchorsOffset : list AnchorsOffsetItem;
  zIndex : Z;
}.

(** [Model.IsAllowMove] and the result type [boolean | Model.IsAllowMove]. *)
Inductive MoveResult :=
| RBool (b : bool)
| RPair (rx ry : bool).

(** [Model.NodeMoveRule]: [(node, deltaX, deltaY) => boolean | IsAllowMove]. *)
Definition NodeMoveRule := NodeData -> Z -> Z -> MoveResult.

(** [Model.ConnectRule]: a predicate and the message of its failure.  The
    predicate takes the receiver ([validate.call(this, ...)]), the source
    node, the target node, the two optional anchors and the optional edge
    id. *)
Record ConnectRule := mkConnectRule {
  validate : NodeData -> NodeData -> NodeData ->
             option AnchorConfig -> option AnchorConfig -> option string -> bool;
  message : string;
}.

(** The node: its data, its rule lists and the two flags. *)
Record BaseNodeModel := mkNode {
  data : NodeData;
  targetRules : list ConnectRule;
  sourceRules : list ConnectRule;
  moveRules : list NodeMoveRule;
  hasSetTargetRules : bool;
  hasSetSourceRules : bool;
}.

Definition set_data (n : BaseNodeModel) (d : NodeData) : BaseNodeModel :=
  mkNode d (targetRules n) (sourceRules n) (moveRules n)
         (hasSetTargetRules n) (hasSetSourceRules n).

Definition set_xy (d : NodeData) (nx ny : Z) : NodeData :=
  mkNodeData (id d) (type d) nx ny (width d) (height d) (rotate_ d)
             (transform d) (text d) (properties d) (anchorsOffset d) (zIndex d).

Definition set_text (d : NodeData) (t : TextField) : NodeData :=
  mkNodeData (id d) (type d) (x d) (y d) (width d) (height d) (rotate_ d)
             (transform d) t (properties d) (anchorsOffset d) (zIndex d).

Definition set_properties (d : NodeData) (p : gmap string PValue) : NodeData :=
  mkNodeData (id d) (type d) (x d) (y d) (width d) (height d) (rotate_ d)
             (transform d) (text d) p (anchorsOffset d) (zIndex d).

Definition set_size (d : NodeData) (w h : Z) : NodeData :=
  mkNodeData (id d) (type d) (x d) (y d) w h (rotate_ d)
             (transform d) (text d) (properties d) (anchorsOffset d) (zIndex d).

(** ** Label configuration read from the property map *)

(** [(labelConfig as LabelConfig)?.multiple], as a truth value: an absent
    [labelConfig] and any value without a [multiple] field give a falsy
    result. *)
Definition labelConfig_multiple (p : gmap string PValue) : bool :=
  match p !! "labelConfig" with
  | Some (PConf c) => multiple c
  | _ => false
  end.

(** ** Move rules *)

(** The loop of [isAllowMoveNode] over the concatenated rules; [None] is
    the early [return false], [Some (ax, ay)] the accumulated pair. *)
Fixpoint moveRules_loop (rules : list NodeMoveRule) (this : NodeData)
    (deltaX deltaY : Z) (isAllowMoveX isAllowMoveY : bool) : option (bool * bool) :=
  match rules with
  | [] => Some (isAllowMoveX, isAllowMoveY)
  | rule :: rest =>
      match rule this deltaX deltaY with
      | RBool false => None
      | RBool true =>
          moveRules_loop rest this deltaX deltaY isAllowMoveX isAllowMoveY
      | RPair rx ry =>
          if negb rx && negb ry then None
          else moveRules_loop rest this deltaX deltaY
                 (isAllowMoveX && rx) (isAllowMoveY && ry)
      end
  end.

(** [isAllowMoveNode(deltaX, deltaY)]; [graphRules] is
    [this.graphModel.nodeMoveRules]. *)
Definition isAllowMoveNode (graphRules : list NodeMoveRule) (n : BaseNodeModel)
    (deltaX deltaY : Z) : MoveResult :=
  match moveRules_loop (moveRules n ++ graphRules) (data n) deltaX deltaY true true with
  | None => RBool false
  | Some (ax, ay) => RPair ax ay
  end.

(** [isAllowMoveByXORY(deltaX, deltaY, isIgnoreRule)]. *)
Definition isAllowMoveByXORY (graphRules : list NodeMoveRule) (n : BaseNodeModel)
    (deltaX deltaY : Z) (isIgnoreRule : bool) : bool * bool :=
  if isIgnoreRule then (true, true)
  else match isAllowMoveNode graphRules n deltaX deltaY with
       | RBool r => (r, r)
       | RPair rx ry => (rx, ry)
       end.

(** ** Moving the labels and the node *)

Definition shift_label (deltaX deltaY : Z) (item : LabelType) : LabelType :=
  mkLabel (label_id item) (label_relateId item) (label_value item)
          (label_content item) (label_x item + deltaX) (label_y item + deltaY)
          (label_draggable item) (label_editable item) (label_isFocus item).

(** [moveText(deltaX, deltaY)].  In the first branch [isObject] also holds
    of an array, which is then spread into an object literal. *)
Definition moveText (d : NodeData) (deltaX deltaY : Z) : NodeData :=
  if negb (labelConfig_multiple (properties d)) then
    match text d with
    | TextSingle t => set_text d (TextSingle (shift_label deltaX deltaY t))
    | TextList _ | TextOther => set_text d TextOther
    end
  else
    match text d with
    | TextList ts => set_text d (TextList (map (shift_label deltaX deltaY) ts))
    | TextSingle _ | TextOther => d
    end.

(** [move(deltaX, deltaY, isIgnoreRule)]: the node after the call and the
    returned boolean.  [this.text] is an object or an array, hence truthy. *)
Definition move (graphRules : list NodeMoveRule) (n : BaseNodeModel)
    (deltaX deltaY : Z) (isIgnoreRule : bool) : BaseNodeModel * bool :=
  let '(isAllowMoveX, isAllowMoveY) :=
    isAllowMoveByXORY graphRules n deltaX deltaY isIgnoreRule in
  let d1 :=
    if isAllowMoveX
    then moveText (set_xy (data n) (x (data n) + deltaX) (y (data n))) deltaX 0
    else data n in
  let d2 :=
    if isAllowMoveY
    then moveText (set_xy d1 (x d1) (y d1 + deltaY)) 0 deltaY
    else d1 in
  (set_data n d2, isAllowMoveX || isAllowMoveY).

(** [getMoveDistance(deltaX, deltaY, isIgnoreRule)]: an axis moves only
    when it is allowed and its delta is non-zero. *)
Definition getMoveDistance (graphRules : list NodeMoveRule) (n : BaseNodeModel)
    (deltaX deltaY : Z) (isIgnoreRule : bool) : BaseNodeModel * (Z * Z) :=
  let '(isAllowMoveX, isAllowMoveY) :=
    isAllowMoveByXORY graphRules n deltaX deltaY isIgnoreRule in
  let '(d1, moveX) :=
    if isAllowMoveX && negb (deltaX =? 0)
    then (moveText (set_xy (data n) (x (data n) + deltaX) (y (data n))) deltaX 0, deltaX)
    else (data n, 0) in
  let '(d2, moveY) :=
    if isAllowMoveY && negb (deltaY =? 0)
    then (moveText (set_xy d1 (x d1) (y d1 + deltaY)) 0 deltaY, deltaY)
    else (d1, 0) in
  (set_data n d2, (moveX, moveY)).

(** Truthiness of the value returned by [isAllowMoveNode]: [false] is the
    only falsy one, a pair is an object. *)
Definition truthy_MoveResult (r : MoveResult) : bool :=
  match r with
  | RBool b => b
  | RPair _ _ => true
  end.

(** [moveTo(x, y, isIgnoreRule)]. *)
Definition moveTo (graphRules : list NodeMoveRule) (n : BaseNodeModel)
    (nx ny : Z) (isIgnoreRule : bool) : BaseNodeModel * bool :=
  let deltaX := nx - x (data n) in
  let deltaY := ny - y (data n) in
  if negb isIgnoreRule && negb (truthy_MoveResult (isAllowMoveNode graphRules n deltaX deltaY))
  then (n, false)
  else
    let d1 := moveText (data n) deltaX deltaY in
    (set_data n (set_xy d1 nx ny), true).

(** ** Specification-level notions for the move rules *)

(** The shape invariant of the data model: [text] is a list exactly when
    [labelConfig.multiple] is set, a single record otherwise. *)
Definition text_shape_ok (d : NodeData) : Prop :=
  match text d with
  | TextSingle _ => labelConfig_multiple (properties d) = false
  | TextList _ => labelConfig_multiple (properties d) = true
  | TextOther => False
  end.

(** Every label of the node shifted by a delta, in whichever
    representation is active. *)
Definition shift_text (deltaX deltaY : Z) (t : TextField) : TextField :=
  match t with
  | TextSingle l => TextSingle (shift_label deltaX deltaY l)
  | TextList ls => TextList (map (shift_label deltaX deltaY) ls)
  | TextOther => TextOther
  end.

(** A rule result that vetoes the whole move. *)
Definition vetoes (r : MoveResult) : bool :=
  match r with
  | RBool b => negb b
  | RPair rx ry => negb rx && negb ry
  end.

Definition allows_x (r : MoveResult) : bool :=
  match r with RBool b => b | RPair rx _ => rx end.

Definition allows_y (r : MoveResult) : bool :=
  match r with RBool b => b | RPair _ ry => ry end.

(** The aggregation of a rule list as the specification words it: a veto
    by any rule rejects both axes, otherwise the per-axis answers are
    and-ed. *)
Definition aggregate (rules : list NodeMoveRule) (this : NodeData)
    (deltaX deltaY : Z) : bool * bool :=
  let rs := map (fun rule : NodeMoveRule => rule this deltaX deltaY) rules in
  if existsb vetoes rs then (false, false)
  else (forallb allows_x rs, forallb allows_y rs).

(** The node whose position and labels are replaced, everything else kept. *)
Definition with_position (n : BaseNodeModel) (nx ny : Z) (t : TextField) : BaseNodeModel :=
  set_data n (set_text (set_xy (data n) nx ny) t).


(** ** Sample nodes *)

Definition single_conf : LabelConfig := mkLabelConfig false None false.
Definition multi_conf (m : option Z) : LabelConfig := mkLabelConfig true m false.

Definition sample_label (i : string) (lx ly : Z) (v : string) : LabelType :=
  mkLabel i "n1" v v lx ly false true false.

(** A node at (100, 100), 100 x 80, in single-label mode with one label. *)
Definition single_node : BaseNodeModel :=
  mkNode
    (mkNodeData "n1" "rect" 100 100 100 80 0 None
       (TextSingle (sample_label "t1" 90 90 "hi"))
       {[ "labelConfig" := PConf single_conf ]} [] 1)
    [] [] [] false false.

(** The same node in multiple-label mode with two labels and [max = 2]. *)
Definition multi_node : BaseNodeModel :=
  mkNode
    (mkNodeData "n1" "rect" 100 100 100 80 0 None
       (TextList [sample_label "a" 90 90 "one"; sample_label "b" 90 110 "two"])
       {[ "labelConfig" := PConf (multi_conf (Some 2)) ]} [] 1)
    [] [] [] false false.

(** A move rule that blocks the x axis only. *)
Definition rule_lock_x : NodeMoveRule := fun _ _ _ => RPair false true.

(** A move rule that blocks the y axis only. *)
Definition rule_lock_y : NodeMoveRule := fun _ _ _ => RPair true false.

(** The results of the concatenated rule list at a proposed delta. *)
Definition rule_results (graphRules : list NodeMoveRule) (n : BaseNodeModel)
    (deltaX deltaY : Z) : list MoveResult :=
  map (fun rule : NodeMoveRule => rule (data n) deltaX deltaY)
      (moveRules n ++ graphRules).

(** ** Connection rules *)

(** [Model.ConnectRuleResult]. *)
Record ConnectRuleResult := mkResult {
  isAllPass : bool;
  msg : string;
}.

(** One invocation of a predicate: the index of the rule in the chain, the
    receiver and the five arguments. *)
Record Call := mkCall {
  call_index : nat;
  call_this : NodeData;
  call_source : NodeData;
  call_target : NodeData;
  call_sourceAnchor : option AnchorConfig;
  call_targetAnchor : option AnchorConfig;
  call_edgeId : option string;
}.

(** The [for] loop shared by [isAllowConnectedAsSource] and
    [isAllowConnectedAsTarget], from index [i] on: the result and the
    invocations made, in order.  The [break] ends the loop at the first
    predicate whose answer is falsy. *)
Fixpoint connect_loop (rules : list ConnectRule) (i : nat)
    (this source target : NodeData)
    (sourceAnchor targetAnchor : option AnchorConfig) (edgeId : option string)
    : ConnectRuleResult * list Call :=
  match rules with
  | [] => (mkResult true EmptyString, [])
  | rule :: rest =>
      let call := mkCall i this source target sourceAnchor targetAnchor edgeId in
      if negb (validate rule this source target sourceAnchor targetAnchor edgeId)
      then (mkResult false (message rule), [call])
      else
        let '(r, log) :=
          connect_loop rest (S i) this source target sourceAnchor targetAnchor edgeId in
        (r, call :: log)
  end.

(** An overridable hook ([getConnectedSourceRules],
    [getConnectedTargetRules]): it returns a rule list and may change the
    node on the way (an override that pushes onto [this.sourceRules]), so it
    yields the list and the node after the call. *)
Definition RulesHook := BaseNodeModel -> list ConnectRule * BaseNodeModel.

(** The hooks of the base class. *)
Definition getConnectedSourceRules : RulesHook := fun n => (sourceRules n, n).
Definition getConnectedTargetRules : RulesHook := fun n => (targetRules n, n).

Definition set_hasSetSourceRules (n : BaseNodeModel) (b : bool) : BaseNodeModel :=
  mkNode (data n) (targetRules n) (sourceRules n) (moveRules n)
         (hasSetTargetRules n) b.

Definition set_hasSetTargetRules (n : BaseNodeModel) (b : bool) : BaseNodeModel :=
  mkNode (data n) (targetRules n) (sourceRules n) (moveRules n)
         b (hasSetSourceRules n).

Definition set_sourceRules (n : BaseNodeModel) (rules : list ConnectRule) : BaseNodeModel :=
  mkNode (data n) (targetRules n) rules (moveRules n)
         (hasSetTargetRules n) (hasSetSourceRules n).

Definition set_targetRules (n : BaseNodeModel) (rules : list ConnectRule) : BaseNodeModel :=
  mkNode (data n) rules (sourceRules n) (moveRules n)
         (hasSetTargetRules n) (hasSetSourceRules n).

(** [isAllowConnectedAsSource(target, sourceAnchor, targetAnchor, edgeId)]
    for a class whose [getConnectedSourceRules] is [hook]: the node after
    the call, the result and the invocations made. *)
Definition isAllowConnectedAsSource (hook : RulesHook) (n : BaseNodeModel)
    (target : NodeData) (sourceAnchor targetAnchor : option AnchorConfig)
    (edgeId : option string) : BaseNodeModel * ConnectRuleResult * list Call :=
  let '(rules, n1) :=
    if negb (hasSetSourceRules n) then hook n else (sourceRules n, n) in
  let n2 := set_hasSetSourceRules n1 true in
  let '(r, log) :=
    connect_loop rules 0 (data n2) (data n2) target sourceAnchor targetAnchor edgeId in
  (n2, r, log).

(** [isAllowConnectedAsTarget(source, sourceAnchor, targetAnchor, edgeId)]
    for a class whose [getConnectedTargetRules] is [hook]. *)
Definition isAllowConnectedAsTarget (hook : RulesHook) (n : BaseNodeModel)
    (source : NodeData) (sourceAnchor targetAnchor : option AnchorConfig)
    (edgeId : option string) : BaseNodeModel * ConnectRuleResult * list Call :=
  let '(rules, n1) :=
    if negb (hasSetTargetRules n) then hook n else (targetRules n, n) in
  let n2 := set_hasSetTargetRules n1 true in
  let '(r, log) :=
    connect_loop rules 0 (data n2) source (data n2) sourceAnchor targetAnchor edgeId in
  (n2, r, log).

(** The chain that an evaluation runs. *)
Definition source_chain (hook : RulesHook) (n : BaseNodeModel) : list ConnectRule :=
  if negb (hasSetSourceRules n) then fst (hook n) else sourceRules n.

Definition target_chain (hook : RulesHook) (n : BaseNodeModel) : list ConnectRule :=
  if negb (hasSetTargetRules n) then fst (hook n) else targetRules n.

(** The invocations of the first [k] rules of a chain, from index [i]. *)
Definition calls_from (i k : nat) (this source target : NodeData)
    (sourceAnchor targetAnchor : option AnchorConfig) (edgeId : option string)
    : list Call :=
  map (fun j => mkCall j this source target sourceAnchor targetAnchor edgeId)
      (seq i k).

(** Sample rules: one that always fails with message "no", one that always
    passes. *)
Definition rule_no : ConnectRule := mkConnectRule (fun _ _ _ _ _ _ => false) "no".
Definition rule_yes : ConnectRule := mkConnectRule (fun _ _ _ _ _ _ => true) "yes".

(** The reading of the flag as a cache of the chain: once a first check
    has pulled [hook n], every later check on the node, whatever the hook
    would then return ([hook']) and whatever the rule list has become
    ([later]), gives the result of the chain pulled first. *)
Definition source_chain_cached : Prop :=
  forall (hook hook' : RulesHook) (n : BaseNodeModel) (later : list ConnectRule)
         (target : NodeData) (sa ta : option AnchorConfig) (edgeId : option string),
    hasSetSourceRules n = false ->
    let n1 := fst (fst (isAllowConnectedAsSource hook n target sa ta edgeId)) in
    let n1' := set_sourceRules n1 later in
    snd (fst (isAllowConnectedAsSource hook' n1' target sa ta edgeId)) =
    fst (connect_loop (fst (hook n)) 0 (data n1') (data n1') target sa ta edgeId).

(** An override of [getConnectedSourceRules] that returns a new array and
    leaves [this.sourceRules] alone. *)
Definition hook_fresh : RulesHook := fun n => ((sourceRules n ++ [rule_no])%list, n).

(** An override that pushes onto [this.sourceRules] and returns it. *)
Definition hook_push : RulesHook :=
  fun n => ((sourceRules n ++ [rule_no])%list,
            set_sourceRules n (sourceRules n ++ [rule_no])%list).

(** ** Text labels *)

(** What the destructuring [const { multiple = false, max } = labelConfig]
    of [addText] yields: [None] when it throws ([labelConfig] undefined or
    null), the pair otherwise; a value without these fields gives the
    default [false] and an undefined [max]. *)
Definition destructure_labelConfig (p : gmap string PValue) : option (bool * option Z) :=
  match p !! "labelConfig" with
  | None | Some PNull => None
  | Some (PConf c) => Some (multiple c, max c)
  | Some _ => Some (false, None)
  end.

(** [this.text.length >= max]: only an array has a [length]; the
    comparison of [undefined] with a number is false. *)
Definition text_length_ge (t : TextField) (m : Z) : bool :=
  match t with
  | TextList ts => Z.of_nat (length ts) >=? m
  | TextSingle _ | TextOther => false
  end.

Definition set_isFocus (t : LabelType) (b : bool) : LabelType :=
  mkLabel (label_id t) (label_relateId t) (label_value t) (label_content t)
          (label_x t) (label_y t) (label_draggable t) (label_editable t) b.

(** [addText(labelConf)]; [uuid] is the value of the call [createUuid()],
    [(confX, confY)] the position in [labelConf].  [None] is a thrown
    [TypeError] (no [labelConfig] to destructure, or [push] on a [text]
    that is not an array). *)
Definition addText (uuid : string) (n : BaseNodeModel) (confX confY : Z)
    : option BaseNodeModel :=
  let d := data n in
  match destructure_labelConfig (properties d) with
  | None => None
  | Some (mult, mx) =>
      if mult && match mx with
                 | Some m => text_length_ge (text d) m
                 | None => false
                 end
      then Some n
      else
        let isMultiple := labelConfig_multiple (properties d) in
        let newText :=
          mkLabel uuid (id d) EmptyString EmptyString
                  (if isMultiple then confX else x d - 10)
                  (if isMultiple then confY else y d - 10)
                  false true true in
        if isMultiple then
          match text d with
          | TextList ts => Some (set_data n (set_text d (TextList (ts ++ [newText]))))
          | TextSingle _ | TextOther => None
          end
        else
          match text d with
          | TextSingle t => Some (set_data n (set_text d (TextSingle (set_isFocus t true))))
          | TextList _ | TextOther => Some (set_data n (set_text d TextOther))
          end
  end.

(** [addText] called once per element of [calls], in order. *)
Fixpoint addText_many (calls : list (string * Z * Z)) (n : BaseNodeModel)
    : option BaseNodeModel :=
  match calls with
  | [] => Some n
  | (uuid, confX, confY) :: rest =>
      match addText uuid n confX confY with
      | Some n' => addText_many rest n'
      | None => None
      end
  end.

(** The argument of [deleteText]: [{ index?: number; id?: string }]. *)
Record TextInfo := mkTextInfo {
  info_index : option Z;
  info_id : option string;
}.

(** Truthiness of an optional number: [undefined] and [0] are falsy. *)
Definition truthy_number (v : option Z) : bool :=
  match v with
  | Some i => negb (i =? 0)
  | None => false
  end.

(** The call [isArray()] of [deleteText]: lodash's [isArray] applied to no
    argument tests [undefined], which is not an array. *)
Definition isArray_of_nothing : bool := false.

(** [Array.prototype.splice(start, 1)] on a list: a negative [start] counts
    from the end, a [start] past the end removes nothing. *)
Definition splice1 {A : Type} (start : Z) (l : list A) : list A :=
  let len := Z.of_nat (length l) in
  let from := if start <? 0 then Z.max (len + start) 0 else Z.min start len in
  delete (Z.to_nat from) l.

(** [findIndex(this.text, (item) => item.id === id)]; [None] is [-1].  An
    undefined [id] is equal to no string. *)
Fixpoint findIndex_id (ts : list LabelType) (i : option string) : option nat :=
  match ts with
  | [] => None
  | t :: rest =>
      if match i with
         | Some s => String.eqb (label_id t) s
         | None => false
         end
      then Some O
      else option_map S (findIndex_id rest i)
  end.

Definition clear_label (t : LabelType) : LabelType :=
  mkLabel (label_id t) (label_relateId t) EmptyString EmptyString (label_x t) (label_y t)
          (label_draggable t) (label_editable t) (label_isFocus t).

(** [deleteText(textInfo)]. *)
Definition deleteText (n : BaseNodeModel) (textInfo : TextInfo) : BaseNodeModel :=
  let d := data n in
  match text d with
  | TextList ts =>
      if truthy_number (info_index textInfo) && isArray_of_nothing then
        set_data n (set_text d (TextList
          (splice1 (default 0 (info_index textInfo)) ts)))
      else
        match findIndex_id ts (info_id textInfo) with
        | None => n
        | Some textIndex => set_data n (set_text d (TextList (delete textIndex ts)))
        end
  | TextSingle t => set_data n (set_text d (TextSingle (clear_label t)))
  | TextOther => n
  end.

(** ** The data snapshot *)

(** The projection [{ x, y, value, content }] of a label. *)
Record TextData := mkTextData {
  td_x : Z;
  td_y : Z;
  td_value : string;
  td_content : string;
}.

Definition project_label (t : LabelType) : TextData :=
  mkTextData (label_x t) (label_y t) (label_value t) (label_content t).

Inductive SnapshotText :=
| SnapSingle (t : TextData)
| SnapList (ts : list TextData).

(** [LogicFlow.NodeData] as [getData] fills it; an optional key that is not
    set is [None]. *)
Record NodeSnapshot := mkSnapshot {
  snap_id : string;
  snap_type : string;
  snap_x : Z;
  snap_y : Z;
  snap_properties : gmap string PValue;
  snap_rotate : option Z;
  snap_zIndex : option Z;
  snap_text : option SnapshotText;
}.

(** [getData()]; [overlapIncrease] is
    [this.graphModel.overlapMode === OverlapMode.INCREASE].  A string is
    truthy when it is not empty; the object that is neither a record nor an
    array has no [value]. *)
Definition getData (overlapIncrease : bool) (n : BaseNodeModel) : NodeSnapshot :=
  let d := data n in
  mkSnapshot (id d) (type d) (x d) (y d) (properties d)
    (if rotate_ d =? 0 then None else Some (rotate_ d))
    (if overlapIncrease then Some (zIndex d) else None)
    (match text d with
     | TextList ts => Some (SnapList (map project_label ts))
     | TextSingle t =>
         if String.eqb (label_value t) EmptyString then None
         else Some (SnapSingle (project_label t))
     | TextOther => None
     end).

(** The record that [addText] appends in multiple mode. *)
Definition new_label (uuid : string) (n : BaseNodeModel) (confX confY : Z) : LabelType :=
  mkLabel uuid (id (data n)) EmptyString EmptyString confX confY false true true.

(** Multiple-label mode with a bound: the configuration is a record with
    [multiple] set and [max = m], and [text] is the list [ts]. *)
Definition multiple_mode (n : BaseNodeModel) (m : Z) (ts : list LabelType) : Prop :=
  (exists c, properties (data n) !! "labelConfig" = Some (PConf c) /\
             multiple c = true /\ max c = Some m) /\
  text (data n) = TextList ts.

(** Single-label mode: the configuration is a record with [multiple] unset
    and [text] is the record [t]. *)
Definition single_mode (n : BaseNodeModel) (t : LabelType) : Prop :=
  (exists c, properties (data n) !! "labelConfig" = Some (PConf c) /\
             multiple c = false) /\
  text (data n) = TextSingle t.

(** A node in multiple-label mode without labels, [max = 2]. *)
Definition empty_multi_node : BaseNodeModel :=
  set_data multi_node (set_text (data multi_node) (TextList [])).

(** ** Properties *)

(** The payload of the [NODE_PROPERTIES_CHANGE] event handed to
    [graphModel.eventCenter.emit]. *)
Record PropertiesChange := mkChange {
  change_id : string;
  change_keys : list string;
  change_preProperties : gmap string PValue;
  change_properties : gmap string PValue;
}.

(** [stored !== supplied] where [stored] is read from the plain copy
    [toJS(this.properties)] and [supplied] is a value of the caller:
    primitives are compared by value, and an object of the copy is never
    the object the caller holds. *)
Definition strict_neq (stored supplied : PValue) : bool :=
  match stored, supplied with
  | PNull, PNull => false
  | PBool a, PBool b => negb (Bool.eqb a b)
  | PNum a, PNum b => negb (a =? b)
  | PStr a, PStr b => negb (String.eqb a b)
  | _, _ => true
  end.

(** The spread [{ ...preProperties, ...entries }]: the entries are written
    over the old map in their order. *)
Definition spread_over (pre : gmap string PValue) (entries : list (string * PValue))
    : gmap string PValue :=
  fold_left (fun m kv => <[fst kv := snd kv]> m) entries pre.

(** [setProperty(key, val)]: the node after the call and the event
    emitted.  [formatData] is the helper of [util] (a copy of its
    argument); [toJS] gives a plain copy with the same content; the hook
    [setAttributes] is the empty one of the base class. *)
Definition setProperty (formatData : PValue -> PValue) (n : BaseNodeModel)
    (key : string) (val : PValue) : BaseNodeModel * PropertiesChange :=
  let preProperties := properties (data n) in
  let nextProperties := <[key := formatData val]> preProperties in
  (set_data n (set_properties (data n) nextProperties),
   mkChange (id (data n)) [key] preProperties nextProperties).

(** The test of [setProperties] on one supplied entry. *)
Definition is_update (preProperties : gmap string PValue) (kv : string * PValue) : bool :=
  match preProperties !! fst kv with
  | Some old => strict_neq old (snd kv)
  | None => true
  end.

(** [setProperties(properties)]; the supplied object is the list of its
    entries in enumeration order, and [formatData] copies it entry by
    entry. *)
Definition setProperties (formatData : PValue -> PValue) (n : BaseNodeModel)
    (props : list (string * PValue)) : BaseNodeModel * PropertiesChange :=
  let preProperties := properties (data n) in
  let nextProperties :=
    spread_over preProperties (map (fun kv => (fst kv, formatData (snd kv))) props) in
  let updateKeys := map fst (List.filter (is_update preProperties) props) in
  (set_data n (set_properties (data n) nextProperties),
   mkChange (id (data n)) updateKeys preProperties nextProperties).

(** A node that already has the property [color = "red"]. *)
Definition red_node : BaseNodeModel :=
  set_data single_node
    (set_properties (data single_node)
       (<["color" := PStr "red"]> (properties (data single_node)))).

Definition is_primitive (v : PValue) : bool := negb (is_object v).

(** A node whose property [size] is an object. *)
Definition sized_props : list (string * PValue) := [("size", PObj "{w:1}")].

(** ** The transform engine *)

(** Modelled from the spec: the affine-matrix helper of [util] ([Matrix],
    [TranslateMatrix] and their methods [rotate] and [translate]) is not
    among the sources.  A transform is a matrix acting on row vectors, and
    [cross] is the matrix product: [translate] and [rotate] multiply on the
    right, so that [TranslateMatrix(-x, -y).rotate(a).translate(x, y)]
    moves the centre to the origin, rotates by the signed angle and moves
    back. *)
Definition cross (m1 m2 : Matrix) : Matrix :=
  mkMatrix (m_a m1 * m_a m2 + m_b m1 * m_c m2)
           (m_a m1 * m_b m2 + m_b m1 * m_d m2)
           (m_c m1 * m_a m2 + m_d m1 * m_c m2)
           (m_c m1 * m_b m2 + m_d m1 * m_d m2)
           (m_e m1 * m_a m2 + m_f m1 * m_c m2 + m_e m2)
           (m_e m1 * m_b m2 + m_f m1 * m_d m2 + m_f m2).

(** Modelled from the spec: [new TranslateMatrix(tx, ty)] of the missing
    matrix helper, the translation by [(tx, ty)]. *)
Definition TranslateMatrix (tx ty : Z) : Matrix := mkMatrix 1 0 0 1 tx ty.

(** Modelled from the spec: the rotation matrix of the missing matrix
    helper.  The cosine and the sine of the angle, [Math_cos] and
    [Math_sin], are parameters; the sign convention is the one of the
    scenario of the spec, where a quarter turn takes the offset (50, 0) to
    (0, 50). *)
Definition RotateMatrix (Math_cos Math_sin : Z -> Z) (angle : Z) : Matrix :=
  mkMatrix (Math_cos angle) (Math_sin angle)
           (- Math_sin angle) (Math_cos angle) 0 0.

(** Modelled from the spec: the method [translate] of the missing matrix
    helper. *)
Definition Matrix_translate (m : Matrix) (tx ty : Z) : Matrix :=
  cross m (TranslateMatrix tx ty).

(** Modelled from the spec: the method [rotate] of the missing matrix
    helper. *)
Definition Matrix_rotate (Math_cos Math_sin : Z -> Z) (m : Matrix) (angle : Z) : Matrix :=
  cross m (RotateMatrix Math_cos Math_sin angle).

(** Modelled from the spec: the row vector [[px, py, 1]] of
    [new Matrix([px, py, 1])] multiplied by a matrix. *)
Definition apply_matrix (p : Z * Z) (m : Matrix) : Z * Z :=
  (fst p * m_a m + snd p * m_c m + m_e m,
   fst p * m_b m + snd p * m_d m + m_f m).

(** The descriptor
    [new TranslateMatrix(-x, -y).rotate(value).translate(x, y)]; its
    rendering as a string is left out. *)
Definition transform_of (Math_cos Math_sin : Z -> Z) (cx cy angle : Z) : Matrix :=
  Matrix_translate
    (Matrix_rotate Math_cos Math_sin (TranslateMatrix (- cx) (- cy)) angle) cx cy.

(** The setter [set rotate(value)]. *)
Definition set_rotate (Math_cos Math_sin : Z -> Z) (n : BaseNodeModel) (value : Z)
    : BaseNodeModel :=
  let d := data n in
  set_data n
    (mkNodeData (id d) (type d) (x d) (y d) (width d) (height d) value
       (Some (transform_of Math_cos Math_sin (x d) (y d) value))
       (text d) (properties d) (anchorsOffset d) (zIndex d)).

(** The descriptor agrees with the current position and rotation. *)
Definition transform_consistent (Math_cos Math_sin : Z -> Z) (d : NodeData) : Prop :=
  transform d = Some (transform_of Math_cos Math_sin (x d) (y d) (rotate_ d)).

(** Cosine and sine in degrees, exact at the multiples of a quarter turn
    (and used only there). *)
Definition cos_deg (a : Z) : Z :=
  match a mod 360 with
  | 0 => 1
  | 180 => -1
  | _ => 0
  end.

Definition sin_deg (a : Z) : Z :=
  match a mod 360 with
  | 90 => 1
  | 270 => -1
  | _ => 0
  end.

(** [resize(resizeInfo)]: the node after the call, the event of
    [setProperties] and the snapshot returned.  The source moves by the
    halves [deltaX / 2] and [deltaY / 2]; the half of an odd delta is no
    integer, so the arguments [halfDeltaX] and [halfDeltaY] are these halves
    themselves: the call modelled is the one whose [resizeInfo] has
    [deltaX = 2 * halfDeltaX] and [deltaY = 2 * halfDeltaY], where the
    division is exact. *)
Definition resize (formatData : PValue -> PValue) (overlapIncrease : bool)
    (graphRules : list NodeMoveRule) (n : BaseNodeModel)
    (newWidth newHeight halfDeltaX halfDeltaY : Z)
    : BaseNodeModel * PropertiesChange * NodeSnapshot :=
  let n1 := fst (move graphRules n halfDeltaX halfDeltaY false) in
  let n2 := set_data n1 (set_size (data n1) newWidth newHeight) in
  let '(n3, change) :=
    setProperties formatData n2
      [("width", PNum newWidth); ("height", PNum newHeight)] in
  (n3, change, getData overlapIncrease n3).

(** ** The anchor resolver *)

(** The decimal text of an index, as a template literal prints it. *)
Definition string_of_index (idx : nat) : string :=
  NilEmpty.string_of_uint (Nat.to_uint idx).

(** The default id [`${id}_${idx}`]. *)
Definition default_anchor_id (nodeId : string) (idx : nat) : string :=
  (nodeId ++ "_" ++ string_of_index idx)%string.

(** [el.id || `${id}_${idx}`]: an absent or empty id is falsy. *)
Definition id_or_default (elId : option string) (nodeId : string) (idx : nat) : string :=
  match elId with
  | Some s => if String.eqb s EmptyString then default_anchor_id nodeId idx else s
  | None => default_anchor_id nodeId idx
  end.

(** The callback of the [map] in [getAnchorsByOffset]. *)
Definition anchor_of_offset (d : NodeData) (idx : nat) (el : AnchorsOffsetItem)
    : AnchorConfig :=
  match el with
  | OffsetTuple ox oy =>
      mkAnchor (Some (default_anchor_id (id d) idx)) (x d + ox) (y d + oy)
  | OffsetRecord a =>
      mkAnchor (Some (id_or_default (anchor_id a) (id d) idx))
               (x d + anchor_x a) (y d + anchor_y a)
  end.

(** [getAnchorsByOffset()]; [getDefaultAnchor] is the overridable
    generator of the node's class. *)
Definition getAnchorsByOffset (getDefaultAnchor : NodeData -> list AnchorConfig)
    (d : NodeData) : list AnchorConfig :=
  match anchorsOffset d with
  | [] => getDefaultAnchor d
  | _ :: _ => imap (anchor_of_offset d) (anchorsOffset d)
  end.

(** [getDefaultAnchor] of the base class and of [CircleNodeModel] (radius
    [r]). *)
Definition getDefaultAnchor_base : NodeData -> list AnchorConfig := fun _ => [].

Definition getDefaultAnchor_circle (r : Z) : NodeData -> list AnchorConfig :=
  fun d =>
    [ mkAnchor (Some (default_anchor_id (id d) 0)) (x d) (y d - r);
      mkAnchor (Some (default_anchor_id (id d) 1)) (x d + r) (y d);
      mkAnchor (Some (default_anchor_id (id d) 2)) (x d) (y d + r);
      mkAnchor (Some (default_anchor_id (id d) 3)) (x d - r) (y d) ].

(** The body of the [forEach] in the getter [anchors]: the point of the
    anchor taken through [translate(-x, -y)], [rotate(rotate)] and
    [translate(x, y)]. *)
Definition rotate_anchor (Math_cos Math_sin : Z -> Z) (d : NodeData)
    (anchor : AnchorConfig) : AnchorConfig :=
  let p0 := (anchor_x anchor, anchor_y anchor) in
  let p1 := apply_matrix p0 (TranslateMatrix (- x d) (- y d)) in
  let p2 := apply_matrix p1 (RotateMatrix Math_cos Math_sin (rotate_ d)) in
  let p3 := apply_matrix p2 (TranslateMatrix (x d) (y d)) in
  mkAnchor (anchor_id anchor) (fst p3) (snd p3).

(** The getter [anchors]. *)
Definition anchors (Math_cos Math_sin : Z -> Z)
    (getDefaultAnchor : NodeData -> list AnchorConfig) (d : NodeData)
    : list AnchorConfig :=
  map (rotate_anchor Math_cos Math_sin d) (getAnchorsByOffset getDefaultAnchor d).

(** The offset of an entry of [anchorsOffset], and the id it supplies. *)
Definition offset_of (el : AnchorsOffsetItem) : Z * Z :=
  match el with
  | OffsetTuple ox oy => (ox, oy)
  | OffsetRecord a => (anchor_x a, anchor_y a)
  end.

Definition supplied_id (el : AnchorsOffsetItem) : option string :=
  match el with
  | OffsetTuple _ _ => None
  | OffsetRecord a => if String.eqb (default EmptyString (anchor_id a)) EmptyString then None else anchor_id a
  end.


(** The node of the scenario: centre (100, 100), 100 x 80, one anchor
    offset (50, 0), rotated by 90 degrees through the setter. *)
Definition anchored_node : BaseNodeModel :=
  set_rotate cos_deg sin_deg
    (set_data single_node
       (mkNodeData "n1" "rect" 100 100 100 80 0 None
          (TextSingle (sample_label "t1" 90 90 "hi"))
          {[ "labelConfig" := PConf single_conf ]}
          [OffsetTuple 50 0; OffsetRecord (mkAnchor (Some "right") 50 0)] 1))
    90.

(** The descriptor and the rotation of [d'] are those of [d]. *)
Definition same_transform (d d' : NodeData) : Prop :=
  transform d' = transform d /\ rotate_ d' = rotate_ d.

(** ** Further notions used by the properties of the operations *)

Definition set_moveRules (n : BaseNodeModel) (rules : list NodeMoveRule) : BaseNodeModel :=
  mkNode (data n) (targetRules n) (sourceRules n) rules
         (hasSetTargetRules n) (hasSetSourceRules n).

(** Everything of a node except its position and its text. *)
Definition same_frame (n n' : BaseNodeModel) : Prop :=
  id (data n') = id (data n) /\ type (data n') = type (data n) /\
  width (data n') = width (data n) /\ height (data n') = height (data n) /\
  rotate_ (data n') = rotate_ (data n) /\ transform (data n') = transform (data n) /\
  properties (data n') = properties (data n) /\
  anchorsOffset (data n') = anchorsOffset (data n) /\
  zIndex (data n') = zIndex (data n) /\
  targetRules n' = targetRules n /\ sourceRules n' = sourceRules n /\
  moveRules n' = moveRules n /\
  hasSetTargetRules n' = hasSetTargetRules n /\
  hasSetSourceRules n' = hasSetSourceRules n.

(** ** Updating a label *)

(** The object form of the argument of [updateText]: every field is
    optional. *)
Record TextPatch := mkPatch {
  patch_content : option string;
  patch_value : option string;
  patch_x : option Z;
  patch_y : option Z;
  patch_isFocus : option bool;
}.

(** The argument [value] of [updateText]: a string or a patch. *)
Inductive TextUpdate :=
| UpdateString (s : string)
| UpdateRecord (p : TextPatch).

(** A label with the fields present in a patch written over it, as both
    [merge] and [assign] do for the keys the source object has. *)
Definition patch_label (p : TextPatch) (t : LabelType) : LabelType :=
  mkLabel (label_id t) (label_relateId t)
          (default (label_value t) (patch_value p))
          (default (label_content t) (patch_content p))
          (default (label_x t) (patch_x p))
          (default (label_y t) (patch_y p))
          (label_draggable t) (label_editable t)
          (default (label_isFocus t) (patch_isFocus p)).

(** The object [{ value, content: value, isFocus: false }] that the single
    branch merges for a string. *)
Definition patch_of_string (s : string) : TextPatch :=
  mkPatch (Some s) (Some s) None None (Some false).

(** [(this.text as LabelType).id]: an array and the object that is neither
    a record nor an array have no [id]. *)
Definition text_id (t : TextField) : option string :=
  match t with
  | TextSingle l => Some (label_id l)
  | TextList _ | TextOther => None
  end.

(** [isEqual] on two optional strings; two undefined values are equal. *)
Definition isEqual_id (a b : option string) : bool :=
  match a, b with
  | Some s, Some s' => String.eqb s s'
  | None, None => true
  | _, _ => false
  end.

(** [assign(this.text[textIndex], value)]: a patch writes its fields; a
    string source only adds its characters under the keys "0", "1", ...,
    which are no fields of a label. *)
Definition assign_label (value : TextUpdate) (t : LabelType) : LabelType :=
  match value with
  | UpdateRecord p => patch_label p t
  | UpdateString _ => t
  end.

(** [updateText(value, id)].  [None] is the [TypeError] of reading
    [multiple] of a null [labelConfig] (the default [{}] of the
    destructuring replaces an undefined one only).  In the first branch
    [merge] writes the fields on [this.text]; on an array it adds them as
    properties of the array object and leaves the elements alone. *)
Definition updateText (n : BaseNodeModel) (value : TextUpdate) (i : option string)
    : option BaseNodeModel :=
  let d := data n in
  match properties d !! "labelConfig" with
  | Some PNull => None
  | _ =>
      if negb (labelConfig_multiple (properties d)) && isEqual_id (text_id (text d)) i
      then
        let p := match value with
                 | UpdateString s => patch_of_string s
                 | UpdateRecord p => p
                 end in
        match text d with
        | TextSingle t => Some (set_data n (set_text d (TextSingle (patch_label p t))))
        | TextList _ | TextOther => Some n
        end
      else
        match text d with
        | TextList ts =>
            match findIndex_id ts i with
            | None => Some n
            | Some textIndex =>
                Some (set_data n (set_text d
                        (TextList (alter (assign_label value) textIndex ts))))
            end
        | TextSingle _ | TextOther => Some n
        end
  end.

(** ** Normalising the text of a node configuration *)

(** A text record as a caller writes it in the configuration: the value,
    and optional further fields. *)
Record TextInput := mkTextInput {
  in_id : option string;
  in_relateId : option string;
  in_value : string;
  in_content : option string;
  in_x : option Z;
  in_y : option Z;
  in_draggable : option bool;
  in_editable : option bool;
  in_isFocus : option bool;
}.

Inductive TextItem :=
| ItemString (s : string)
| ItemRecord (r : TextInput).

(** [data.text] of the configuration. *)
Inductive TextConfig :=
| ConfigAbsent
| ConfigString (s : string)
| ConfigList (items : list TextItem)
| ConfigRecord (r : TextInput).

(** A record as [formatText] builds it; the object branch leaves
    [relateId], [draggable] and [editable] undefined unless the caller
    supplied them.  (The field [verticle] is left out: it is read from the
    key [virtical] of the label configuration.) *)
Record FormattedLabel := mkFormatted {
  f_id : string;
  f_relateId : option string;
  f_value : string;
  f_content : string;
  f_x : Z;
  f_y : Z;
  f_draggable : option bool;
  f_editable : option bool;
  f_isFocus : bool;
}.

(** [data.text] after [formatText]; [FUndefined] is the [textList[0]] of an
    empty list. *)
Inductive FormattedText :=
| FUndefined
| FSingle (l : FormattedLabel)
| FList (ls : list FormattedLabel).

(** lodash [slice(array, 0, end)] for an integer [end]: an [end] past the
    length is the length, a negative [end] counts from the length. *)
Definition slice0 {A : Type} (l : list A) (e : Z) : list A :=
  let len := Z.of_nat (length l) in
  let e1 := if e >? len then len else e in
  let e2 := if e1 <? 0 then e1 + len else e1 in
  if 0 >? e2 then [] else take (Z.to_nat e2) l.

(** [a || b] on strings, [a] optional: an absent or empty [a] is falsy. *)
Definition or_string (a : option string) (b : string) : string :=
  match a with
  | Some s => if String.eqb s EmptyString then b else s
  | None => b
  end.

(** The record made from a string, at index [index]: the defaults
    ([defaultText], [defaultPosition(index)]) with the value and content. *)
Definition formatted_string (createUuid : nat -> string) (dataId : string)
    (dataX dataY : Z) (index : nat) (s : string) : FormattedLabel :=
  mkFormatted (createUuid index) (Some dataId) s s
              (dataX - 10) (dataY - 10 + 20 * Z.of_nat index)
              (Some false) (Some true) false.

(** The callback of the [map] of the list branch. *)
Definition formatted_item (createUuid : nat -> string) (dataId : string)
    (dataX dataY : Z) (index : nat) (item : TextItem) : FormattedLabel :=
  match item with
  | ItemString s => formatted_string createUuid dataId dataX dataY index s
  | ItemRecord r =>
      mkFormatted (default (createUuid index) (in_id r))
                  (Some (default dataId (in_relateId r)))
                  (in_value r)
                  (or_string (in_content r) (in_value r))
                  (default (dataX - 10) (in_x r))
                  (default (dataY - 10 + 20 * Z.of_nat index) (in_y r))
                  (Some (default false (in_draggable r)))
                  (Some (default true (in_editable r)))
                  (default false (in_isFocus r))
  end.

(** [formatText(data)]: the new [data.text].  [createUuid k] is the value
    of the [k]-th call of [createUuid] (one call per record built);
    [dataId], [dataX], [dataY] are [data.id], [data.x], [data.y] and
    [labelConfig] is [data.properties.labelConfig].  An empty string is
    falsy and takes the branch of an absent text. *)
Definition formatText (createUuid : nat -> string) (dataId : string)
    (dataX dataY : Z) (labelConfig : LabelConfig) (t : TextConfig) : FormattedText :=
  let absent :=
    if multiple labelConfig then FList []
    else FSingle (formatted_string createUuid dataId dataX dataY 0 EmptyString) in
  match t with
  | ConfigAbsent => absent
  | ConfigString s =>
      if String.eqb s EmptyString then absent
      else
        let text := formatted_string createUuid dataId dataX dataY 0 s in
        if multiple labelConfig then FList [text] else FSingle text
  | ConfigList items =>
      let textList := imap (formatted_item createUuid dataId dataX dataY) items in
      if multiple labelConfig then
        FList (slice0 textList
                 (match max labelConfig with
                  | None => Z.of_nat (length textList)
                  | Some m => if m >? Z.of_nat (length textList)
                              then Z.of_nat (length textList) else m
                  end))
      else match textList with
           | [] => FUndefined
           | first :: _ => FSingle first
           end
  | ConfigRecord r =>
      let formatedText :=
        mkFormatted (default (createUuid 0%nat) (in_id r)) (in_relateId r)
                    (in_value r) (in_value r) (dataX - 10) (dataY - 10)
                    (in_draggable r) (in_editable r)
                    (default false (in_isFocus r)) in
      if multiple labelConfig then FList [formatedText] else FSingle formatedText
  end.

(** The node [multi_node] without a bound on the number of labels. *)
Definition unbounded_multi_node : BaseNodeModel :=
  set_data multi_node
    (set_properties (data multi_node)
       {[ "labelConfig" := PConf (multi_conf None) ]}).

(** ** Deleting a property, and the style map *)

(** [deleteProperty(key)]: [delete this.properties[key]], then the empty
    [setAttributes] of the base class; no event is emitted. *)
Definition deleteProperty (n : BaseNodeModel) (key : string) : BaseNodeModel :=
  set_data n (set_properties (data n) (delete key (properties (data n)))).

(** [setStyle(key, val)], [setStyles(styles)] and [updateStyles(styles)] as
    functions of the field [this.style], the only one they read and
    write. *)
Definition setStyle (formatData : PValue -> PValue) (style : gmap string PValue)
    (key : string) (val : PValue) : gmap string PValue :=
  <[key := formatData val]> style.

Definition setStyles (formatData : PValue -> PValue) (style : gmap string PValue)
    (styles : list (string * PValue)) : gmap string PValue :=
  spread_over style (map (fun kv => (fst kv, formatData (snd kv))) styles).

Definition updateStyles (formatData : PValue -> PValue) (style : gmap string PValue)
    (styles : list (string * PValue)) : gmap string PValue :=
  spread_over ∅ (map (fun kv => (fst kv, formatData (snd kv))) styles).

(** ** Looking an anchor up by its id *)

(** [anchor.id === anchorId] for a string [anchorId]. *)
Definition has_id (anchorId : string) (anchor : AnchorConfig) : bool :=
  match anchor_id anchor with
  | Some s => String.eqb s anchorId
  | None => false
  end.

(** [getAnchorInfo(anchorId)]: [None] for a nil id, else the first anchor
    of the getter [anchors] that has the id, if any. *)
Definition getAnchorInfo (Math_cos Math_sin : Z -> Z)
    (getDefaultAnchor : NodeData -> list AnchorConfig) (d : NodeData)
    (anchorId : option string) : option AnchorConfig :=
  match anchorId with
  | None => None
  | Some i => List.find (has_id i) (anchors Math_cos Math_sin getDefaultAnchor d)
  end.

(** The square of the distance of an anchor from the centre of the node. *)
Definition distance2 (d : NodeData) (a : AnchorConfig) : Z :=
  (anchor_x a - x d) * (anchor_x a - x d) + (anchor_y a - y d) * (anchor_y a - y d).

(** A node data with two tuple offsets, not rotated. *)
Definition tuple_data : NodeData :=
  mkNodeData "n1" "rect" 100 100 100 80 0 None
    (TextSingle (sample_label "t1" 90 90 "hi"))
    {[ "labelConfig" := PConf single_conf ]}
    [OffsetTuple 50 0; OffsetTuple 0 40] 1.

(** A circle node data of radius 50 at (100, 100) without offsets, turned
    by 90 degrees. *)
Definition circle_data : NodeData :=
  mkNodeData "c1" "circle" 100 100 100 100 90 None
    (TextSingle (sample_label "t1" 90 90 "hi"))
    {[ "labelConfig" := PConf single_conf ]} [] 1.

(** ** The snapshot of a moved node *)

Definition shift_data (deltaX deltaY : Z) (t : TextData) : TextData :=
  mkTextData (td_x t + deltaX) (td_y t + deltaY) (td_value t) (td_content t).

(** The [text] of a snapshot with every position shifted. *)
Definition shift_snapshot_text (deltaX deltaY : Z) (t : option SnapshotText)
    : option SnapshotText :=
  match t with
  | None => None
  | Some (SnapSingle l) => Some (SnapSingle (shift_data deltaX deltaY l))
  | Some (SnapList ls) => Some (SnapList (map (shift_data deltaX deltaY) ls))
  end.

(** ** Notions used to state the moves by projection *)

(** The label [l] placed at [(nx, ny)], every other field kept. *)
Definition label_at (l : LabelType) (nx ny : Z) : LabelType :=
  mkLabel (label_id l) (label_relateId l) (label_value l) (label_content l)
          nx ny (label_draggable l) (label_editable l) (label_isFocus l).

(** A node whose text and label configuration disagree, reached through
    the node's own API: [setProperty('labelConfig', {multiple: true})] on
    the single-label node, whose [text] stays the single record. *)
Definition mismatched_node : BaseNodeModel :=
  fst (setProperty (fun v => v) single_node "labelConfig" (PConf (multi_conf None))).

(** An integer small enough for the sums of the moves to be exact in the
    doubles of the source: up to eight such numbers add up to less than
    2^53. *)
Definition int_safe (z : Z) : Prop := Z.abs z <= 2 ^ 50.

(** The coordinates of the labels of a text. *)
Definition text_coords (t : TextField) : list Z :=
  match t with
  | TextSingle l => [label_x l; label_y l]
  | TextList ls => flat_map (fun l => [label_x l; label_y l]) ls
  | TextOther => []
  end.

(** The position of the node and of its labels are small integers. *)
Definition node_int_safe (n : BaseNodeModel) : Prop :=
  int_safe (x (data n)) /\ int_safe (y (data n)) /\
  Forall int_safe (text_coords (text (data n))).
(** ** Lemmas on the move rules *)

Lemma moveRules_loop_spec (rules : list NodeMoveRule) (this : NodeData)
    (deltaX deltaY : Z) (ax ay : bool) :
  let rs := map (fun rule : NodeMoveRule => rule this deltaX deltaY) rules in
  moveRules_loop rules this deltaX deltaY ax ay =
  if existsb vetoes rs then None
  else Some (ax && forallb allows_x rs, ay && forallb allows_y rs).
Proof.
  revert ax ay; induction rules as [|rule rest IH]; intros ax ay; simpl.
  - now rewrite !andb_true_r.
  - destruct (rule this deltaX deltaY) as [[|]|[|] [|]]; simpl; auto;
      rewrite IH; simpl;
      destruct (existsb vetoes _); auto;
      rewrite ?andb_true_r, ?andb_false_r; simpl; auto.
Qed.

Lemma isAllowMoveByXORY_aggregate (graphRules : list NodeMoveRule)
    (n : BaseNodeModel) (deltaX deltaY : Z) :
  isAllowMoveByXORY graphRules n deltaX deltaY false =
  aggregate (moveRules n ++ graphRules) (data n) deltaX deltaY.
Proof.
  unfold isAllowMoveByXORY, isAllowMoveNode, aggregate.
  rewrite moveRules_loop_spec; simpl.
  destruct (existsb vetoes _); reflexivity.
Qed.

Lemma shift_label_0_0 (l : LabelType) : shift_label 0 0 l = l.
Proof. destruct l; unfold shift_label; simpl; now rewrite !Z.add_0_r. Qed.

Lemma shift_label_compose (a b c d : Z) (l : LabelType) :
  shift_label c d (shift_label a b l) = shift_label (a + c) (b + d) l.
Proof. destruct l; unfold shift_label; simpl; now rewrite !Z.add_assoc. Qed.

Lemma shift_text_0_0 (t : TextField) : shift_text 0 0 t = t.
Proof.
  destruct t as [l|ls|]; simpl; auto.
  - now rewrite shift_label_0_0.
  - f_equal. induction ls as [|l ls IH]; simpl; auto.
    now rewrite shift_label_0_0, IH.
Qed.

Lemma shift_text_compose (a b c d : Z) (t : TextField) :
  shift_text c d (shift_text a b t) = shift_text (a + c) (b + d) t.
Proof.
  destruct t as [l|ls|]; simpl; auto.
  - now rewrite shift_label_compose.
  - f_equal. rewrite map_map. apply map_ext; intros; apply shift_label_compose.
Qed.

Lemma moveText_shape_ok (d : NodeData) (deltaX deltaY : Z) :
  text_shape_ok d ->
  moveText d deltaX deltaY = set_text d (shift_text deltaX deltaY (text d)).
Proof.
  unfold text_shape_ok, moveText.
  destruct (text d) as [l|ls|]; intros H; try contradiction; now rewrite H.
Qed.

Lemma text_shape_ok_set_xy (d : NodeData) (nx ny : Z) :
  text_shape_ok d -> text_shape_ok (set_xy d nx ny).
Proof. auto. Qed.

Lemma text_shape_ok_shift (d : NodeData) (deltaX deltaY : Z) :
  text_shape_ok d -> text_shape_ok (set_text d (shift_text deltaX deltaY (text d))).
Proof. unfold text_shape_ok; simpl. destruct (text d); simpl; auto. Qed.

Lemma move_shape_ok (graphRules : list NodeMoveRule) (n : BaseNodeModel)
    (deltaX deltaY : Z) (isIgnoreRule : bool) :
  text_shape_ok (data n) ->
  let ax := fst (isAllowMoveByXORY graphRules n deltaX deltaY isIgnoreRule) in
  let ay := snd (isAllowMoveByXORY graphRules n deltaX deltaY isIgnoreRule) in
  move graphRules n deltaX deltaY isIgnoreRule =
  (with_position n
     (if ax then x (data n) + deltaX else x (data n))
     (if ay then y (data n) + deltaY else y (data n))
     (shift_text (if ax then deltaX else 0) (if ay then deltaY else 0) (text (data n))),
   ax || ay).
Proof.
  intros Hok; simpl. unfold move.
  destruct (isAllowMoveByXORY graphRules n deltaX deltaY isIgnoreRule) as [ax ay]; simpl.
  destruct n as [d tr sr mr ft fs]; simpl in *.
  destruct ax, ay; unfold with_position, set_data; simpl; f_equal; f_equal.
  - rewrite (moveText_shape_ok (set_xy d _ _)) by auto.
    rewrite moveText_shape_ok by (apply text_shape_ok_set_xy, text_shape_ok_shift; auto).
    destruct d; unfold set_text, set_xy; simpl. f_equal.
    rewrite shift_text_compose. now rewrite Z.add_0_r, Z.add_0_l.
  - rewrite (moveText_shape_ok (set_xy d _ _)) by auto.
    destruct d; reflexivity.
  - rewrite moveText_shape_ok by auto. destruct d; reflexivity.
  - destruct d; unfold set_text, set_xy; simpl. now rewrite shift_text_0_0.
Qed.

(** ** Claim C1: [move] decides and applies each axis on its own *)

Lemma moveText_x (d : NodeData) (deltaX deltaY : Z) :
  x (moveText d deltaX deltaY) = x d.
Proof.
  unfold moveText.
  destruct (negb (labelConfig_multiple (properties d))), (text d); reflexivity.
Qed.

Lemma moveText_y (d : NodeData) (deltaX deltaY : Z) :
  y (moveText d deltaX deltaY) = y d.
Proof.
  unfold moveText.
  destruct (negb (labelConfig_multiple (properties d))), (text d); reflexivity.
Qed.

Lemma move_position (graphRules : list NodeMoveRule) (n : BaseNodeModel)
    (deltaX deltaY : Z) (isIgnoreRule : bool) :
  let allow := isAllowMoveByXORY graphRules n deltaX deltaY isIgnoreRule in
  let out := move graphRules n deltaX deltaY isIgnoreRule in
  x (data (fst out)) = (if fst allow then x (data n) + deltaX else x (data n)) /\
  y (data (fst out)) = (if snd allow then y (data n) + deltaY else y (data n)) /\
  snd out = fst allow || snd allow.
Proof.
  cbv zeta. unfold move.
  destruct (isAllowMoveByXORY graphRules n deltaX deltaY isIgnoreRule) as [[|] [|]];
    cbn [fst snd data set_data];
    rewrite ?moveText_x, ?moveText_y; cbn [x y set_xy];
    rewrite ?moveText_x, ?moveText_y; cbn [x y set_xy];
    repeat split.
Qed.

Lemma move_text (graphRules : list NodeMoveRule) (n : BaseNodeModel)
    (deltaX deltaY : Z) (isIgnoreRule : bool) :
  text_shape_ok (data n) ->
  let allow := isAllowMoveByXORY graphRules n deltaX deltaY isIgnoreRule in
  let out := move graphRules n deltaX deltaY isIgnoreRule in
  let moveX := if fst allow then deltaX else 0 in
  let moveY := if snd allow then deltaY else 0 in
  (forall t, text (data n) = TextSingle t ->
     text (data (fst out)) =
     TextSingle (label_at t (label_x t + moveX) (label_y t + moveY))) /\
  (forall ts, text (data n) = TextList ts ->
     text (data (fst out)) =
     TextList (map (fun l => label_at l (label_x l + moveX) (label_y l + moveY)) ts)).
Proof.
  intros Hok. cbv zeta. rewrite (move_shape_ok graphRules n _ _ _ Hok).
  cbn [fst]. unfold with_position; simpl.
  split; intros t ->; reflexivity.
Qed.

(** The labels are not always shifted with the node, and the value
    returned is that of the permission, not of a displacement.  The node
    [mismatched_node] has [labelConfig.multiple] set while its text is the
    single record at (90, 90): [move(10, 10)] is allowed on both axes and
    takes the node from (100, 100) to (110, 110), and the label stays at
    (90, 90).  On the single-label node, [move(0, 0)] returns [true] and
    leaves the node where it is. *)
Lemma move_shape_mismatch :
  (labelConfig_multiple (properties (data mismatched_node)) = true /\
   text (data mismatched_node) = TextSingle (sample_label "t1" 90 90 "hi") /\
   isAllowMoveByXORY [] mismatched_node 10 10 false = (true, true) /\
   x (data mismatched_node) = 100 /\ y (data mismatched_node) = 100 /\
   x (data (fst (move [] mismatched_node 10 10 false))) = 110 /\
   y (data (fst (move [] mismatched_node 10 10 false))) = 110 /\
   text (data (fst (move [] mismatched_node 10 10 false))) =
     TextSingle (sample_label "t1" 90 90 "hi")) /\
  move [] single_node 0 0 false = (single_node, true).
Proof. vm_compute. repeat split. Qed.

(** C1, amended.  For every node and every delta, [move] takes the
    per-axis answers of the concatenated rule list (both [true] when
    [isIgnoreRule] is set, the aggregation of [moveRules] followed by the
    graph-wide rules otherwise), adds [deltaX] to [x] exactly when the x
    axis is allowed and [deltaY] to [y] exactly when the y axis is allowed,
    and returns the disjunction of the two answers.  When the text has the
    shape the label configuration prescribes, every label is shifted by the
    delta on the allowed axes and stays on the others.  With a single rule
    answering [{x: false, y: true}], [move(10, 10)] keeps [x], adds 10 to
    [y], returns [true] and (text of the prescribed shape) shifts the
    labels by (0, 10). *)
Theorem move_axes_decoupled (graphRules : list NodeMoveRule) (n : BaseNodeModel)
    (deltaX deltaY : Z) (isIgnoreRule : bool) :
  let allow := isAllowMoveByXORY graphRules n deltaX deltaY isIgnoreRule in
  let out := move graphRules n deltaX deltaY isIgnoreRule in
  let moveX := if fst allow then deltaX else 0 in
  let moveY := if snd allow then deltaY else 0 in
  (isIgnoreRule = true -> allow = (true, true)) /\
  (isIgnoreRule = false ->
   allow = aggregate (moveRules n ++ graphRules) (data n) deltaX deltaY) /\
  x (data (fst out)) = (if fst allow then x (data n) + deltaX else x (data n)) /\
  y (data (fst out)) = (if snd allow then y (data n) + deltaY else y (data n)) /\
  snd out = fst allow || snd allow /\
  (text_shape_ok (data n) ->
   (forall t, text (data n) = TextSingle t ->
      text (data (fst out)) =
      TextSingle (label_at t (label_x t + moveX) (label_y t + moveY))) /\
   (forall ts, text (data n) = TextList ts ->
      text (data (fst out)) =
      TextList (map (fun l => label_at l (label_x l + moveX) (label_y l + moveY))
                    ts))) /\
  (forall rule : NodeMoveRule,
     (moveRules n ++ graphRules)%list = [rule] ->
     rule (data n) 10 10 = RPair false true ->
     let out10 := move graphRules n 10 10 false in
     x (data (fst out10)) = x (data n) /\
     y (data (fst out10)) = y (data n) + 10 /\
     snd out10 = true /\
     (text_shape_ok (data n) ->
      (forall t, text (data n) = TextSingle t ->
         text (data (fst out10)) =
         TextSingle (label_at t (label_x t) (label_y t + 10))) /\
      (forall ts, text (data n) = TextList ts ->
         text (data (fst out10)) =
         TextList (map (fun l => label_at l (label_x l) (label_y l + 10)) ts)))).
Proof.
  cbv zeta.
  pose proof (move_position graphRules n deltaX deltaY isIgnoreRule) as Hpos.
  cbv zeta in Hpos. destruct Hpos as (Hx & Hy & Hret).
  split; [intros ->; reflexivity|].
  split; [intros ->; apply isAllowMoveByXORY_aggregate|].
  split; [exact Hx|]. split; [exact Hy|]. split; [exact Hret|].
  split; [intros Hok; exact (move_text graphRules n deltaX deltaY isIgnoreRule Hok)|].
  intros rule Hrules Hrule.
  assert (isAllowMoveByXORY graphRules n 10 10 false = (false, true)) as Hallow.
  { rewrite isAllowMoveByXORY_aggregate, Hrules.
    unfold aggregate; simpl. now rewrite Hrule. }
  pose proof (move_position graphRules n 10 10 false) as Hpos.
  cbv zeta in Hpos. rewrite Hallow in Hpos. cbn [fst snd] in Hpos.
  destruct Hpos as (Hx10 & Hy10 & Hret10).
  split; [exact Hx10|]. split; [exact Hy10|]. split; [exact Hret10|].
  intros Hok. pose proof (move_text graphRules n 10 10 false Hok) as Htext.
  cbv zeta in Htext. rewrite Hallow in Htext. cbn [fst snd] in Htext.
  destruct Htext as [Hsingle Hlist]. split.
  - intros t Ht. rewrite (Hsingle t Ht). now rewrite Z.add_0_r.
  - intros ts Ht. rewrite (Hlist ts Ht). f_equal.
    apply map_ext. intros l. now rewrite Z.add_0_r.
Qed.

Lemma move_axes_decoupled_witness :
  text_shape_ok (data single_node) /\
  x (data (fst (move [rule_lock_x] single_node 10 10 false))) = 100 /\
  y (data (fst (move [rule_lock_x] single_node 10 10 false))) = 110 /\
  snd (move [rule_lock_x] single_node 10 10 false) = true /\
  text (data (fst (move [rule_lock_x] single_node 10 10 false))) =
    TextSingle (sample_label "t1" 90 100 "hi").
Proof.
  assert (text_shape_ok (data single_node)) as Hok by (vm_compute; reflexivity).
  pose proof (move_axes_decoupled [rule_lock_x] single_node 10 10 false) as H.
  cbv zeta in H. destruct H as (_ & _ & _ & _ & _ & _ & Hrule).
  destruct (Hrule rule_lock_x eq_refl eq_refl) as (Hx & Hy & Hret & Htext).
  split; [exact Hok|]. split; [exact Hx|]. split; [exact Hy|]. split; [exact Hret|].
  exact (proj1 (Htext Hok) (sample_label "t1" 90 90 "hi") eq_refl).
Defined.

(** ** Claim C4: [moveTo] decides on the whole vector *)

Lemma isAllowMoveNode_spec (graphRules : list NodeMoveRule) (n : BaseNodeModel)
    (deltaX deltaY : Z) :
  isAllowMoveNode graphRules n deltaX deltaY =
  if existsb vetoes (rule_results graphRules n deltaX deltaY) then RBool false
  else RPair (forallb allows_x (rule_results graphRules n deltaX deltaY))
             (forallb allows_y (rule_results graphRules n deltaX deltaY)).
Proof.
  unfold isAllowMoveNode, rule_results. rewrite moveRules_loop_spec; simpl.
  destruct (existsb vetoes _); reflexivity.
Qed.

Lemma moveTo_rejected (graphRules : list NodeMoveRule) (n : BaseNodeModel)
    (nx ny : Z) :
  isAllowMoveNode graphRules n (nx - x (data n)) (ny - y (data n)) = RBool false ->
  moveTo graphRules n nx ny false = (n, false).
Proof. unfold moveTo; intros ->; reflexivity. Qed.

Lemma moveTo_accepted (graphRules : list NodeMoveRule) (n : BaseNodeModel)
    (nx ny : Z) (isIgnoreRule : bool) :
  text_shape_ok (data n) ->
  isIgnoreRule = true \/
  isAllowMoveNode graphRules n (nx - x (data n)) (ny - y (data n)) <> RBool false ->
  moveTo graphRules n nx ny isIgnoreRule =
  (with_position n nx ny
     (shift_text (nx - x (data n)) (ny - y (data n)) (text (data n))), true).
Proof.
  intros Hok Hallow. unfold moveTo.
  assert (negb isIgnoreRule &&
          negb (truthy_MoveResult
                  (isAllowMoveNode graphRules n (nx - x (data n)) (ny - y (data n))))
          = false) as ->.
  { destruct Hallow as [->|Hne]; [reflexivity|].
    destruct (isAllowMoveNode _ _ _ _) as [[|]|]; simpl;
      rewrite ?andb_false_r; auto; congruence. }
  rewrite moveText_shape_ok by exact Hok.
  destruct n as [d tr sr mr ft fs]; destruct d; reflexivity.
Qed.

Lemma moveTo_accepted_position (graphRules : list NodeMoveRule) (n : BaseNodeModel)
    (nx ny : Z) (isIgnoreRule : bool) :
  isIgnoreRule = true \/
  isAllowMoveNode graphRules n (nx - x (data n)) (ny - y (data n)) <> RBool false ->
  x (data (fst (moveTo graphRules n nx ny isIgnoreRule))) = nx /\
  y (data (fst (moveTo graphRules n nx ny isIgnoreRule))) = ny /\
  snd (moveTo graphRules n nx ny isIgnoreRule) = true.
Proof.
  intros Hallow. unfold moveTo.
  assert (negb isIgnoreRule &&
          negb (truthy_MoveResult
                  (isAllowMoveNode graphRules n (nx - x (data n)) (ny - y (data n))))
          = false) as ->.
  { destruct Hallow as [->|Hne]; [reflexivity|].
    destruct (isAllowMoveNode _ _ _ _) as [[|]|]; simpl;
      rewrite ?andb_false_r; auto; congruence. }
  repeat split.
Qed.

Lemma moveTo_accepted_text (graphRules : list NodeMoveRule) (n : BaseNodeModel)
    (nx ny : Z) (isIgnoreRule : bool) :
  text_shape_ok (data n) ->
  isIgnoreRule = true \/
  isAllowMoveNode graphRules n (nx - x (data n)) (ny - y (data n)) <> RBool false ->
  let deltaX := nx - x (data n) in
  let deltaY := ny - y (data n) in
  let out := moveTo graphRules n nx ny isIgnoreRule in
  (forall t, text (data n) = TextSingle t ->
     text (data (fst out)) =
     TextSingle (label_at t (label_x t + deltaX) (label_y t + deltaY))) /\
  (forall ts, text (data n) = TextList ts ->
     text (data (fst out)) =
     TextList (map (fun l => label_at l (label_x l + deltaX) (label_y l + deltaY)) ts)).
Proof.
  intros Hok Hallow. cbv zeta.
  rewrite (moveTo_accepted graphRules n nx ny isIgnoreRule Hok Hallow).
  cbn [fst]. unfold with_position; simpl.
  split; intros t ->; reflexivity.
Qed.

(** The labels are not always shifted by [moveTo]: on [mismatched_node],
    whose [labelConfig.multiple] is set while its text is the single record
    at (90, 90), [moveTo(130, 70)] is accepted, takes the node from
    (100, 100) to (130, 70) and returns [true], and the label stays at
    (90, 90). *)
Lemma moveTo_shape_mismatch :
  labelConfig_multiple (properties (data mismatched_node)) = true /\
  text (data mismatched_node) = TextSingle (sample_label "t1" 90 90 "hi") /\
  x (data mismatched_node) = 100 /\ y (data mismatched_node) = 100 /\
  x (data (fst (moveTo [] mismatched_node 130 70 false))) = 130 /\
  y (data (fst (moveTo [] mismatched_node 130 70 false))) = 70 /\
  snd (moveTo [] mismatched_node 130 70 false) = true /\
  text (data (fst (moveTo [] mismatched_node 130 70 false))) =
    TextSingle (sample_label "t1" 90 90 "hi").
Proof. vm_compute. repeat split. Qed.

(** C4, amended.  [moveTo] asks [isAllowMoveNode] once, at the whole delta
    [(x - this.x, y - this.y)], and reads the answer as one truth value.
    The answer is [false] exactly when some rule of the concatenated list
    returns a falsy boolean or a pair with both axes false; otherwise it is
    the pair of the and-ed per-axis answers.  When rules are not ignored and
    the answer is [false], [moveTo] returns [false] and the node is
    unchanged.  Otherwise the position becomes exactly [(x, y)] and
    [moveTo] returns [true], and when the text has the shape the label
    configuration prescribes every label is shifted by the full delta; so
    a single rule answering [{x: false, y: true}] yields the full move,
    never a partial one. *)
Theorem moveTo_whole_vector (graphRules : list NodeMoveRule) (n : BaseNodeModel)
    (nx ny : Z) (isIgnoreRule : bool) :
  let deltaX := nx - x (data n) in
  let deltaY := ny - y (data n) in
  let rs := rule_results graphRules n deltaX deltaY in
  let out := moveTo graphRules n nx ny isIgnoreRule in
  let full_move :=
    x (data (fst out)) = nx /\ y (data (fst out)) = ny /\ snd out = true /\
    (text_shape_ok (data n) ->
     (forall t, text (data n) = TextSingle t ->
        text (data (fst out)) =
        TextSingle (label_at t (label_x t + deltaX) (label_y t + deltaY))) /\
     (forall ts, text (data n) = TextList ts ->
        text (data (fst out)) =
        TextList (map (fun l => label_at l (label_x l + deltaX) (label_y l + deltaY))
                      ts))) in
  (isAllowMoveNode graphRules n deltaX deltaY =
     if existsb vetoes rs then RBool false
     else RPair (forallb allows_x rs) (forallb allows_y rs)) /\
  (isIgnoreRule = false -> existsb vetoes rs = true -> out = (n, false)) /\
  (isIgnoreRule = true \/ existsb vetoes rs = false -> full_move) /\
  (forall rule : NodeMoveRule,
     (moveRules n ++ graphRules)%list = [rule] ->
     rule (data n) deltaX deltaY = RPair false true ->
     full_move).
Proof.
  intros deltaX deltaY rs out full_move.
  pose proof (isAllowMoveNode_spec graphRules n deltaX deltaY) as Hspec.
  fold rs in Hspec.
  assert (isIgnoreRule = true \/
          isAllowMoveNode graphRules n deltaX deltaY <> RBool false -> full_move)
    as Hfull.
  { intros Hallow. unfold full_move, out.
    destruct (moveTo_accepted_position graphRules n nx ny isIgnoreRule Hallow)
      as (Hx & Hy & Hret).
    split; [exact Hx|]. split; [exact Hy|]. split; [exact Hret|].
    intros Hok.
    exact (moveTo_accepted_text graphRules n nx ny isIgnoreRule Hok Hallow). }
  split; [exact Hspec|]. split; [|split].
  - intros -> Hveto. apply moveTo_rejected. fold deltaX deltaY.
    now rewrite Hspec, Hveto.
  - intros Hallow. apply Hfull.
    destruct Hallow as [->|Hnoveto]; [now left|right].
    rewrite Hspec, Hnoveto. discriminate.
  - intros rule Hrules Hrule. apply Hfull. right.
    rewrite Hspec. unfold rs, rule_results.
    rewrite Hrules; simpl. rewrite Hrule; simpl. discriminate.
Qed.

Lemma moveTo_whole_vector_witness :
  text_shape_ok (data single_node) /\
  x (data (fst (moveTo [rule_lock_x] single_node 130 70 false))) = 130 /\
  y (data (fst (moveTo [rule_lock_x] single_node 130 70 false))) = 70 /\
  snd (moveTo [rule_lock_x] single_node 130 70 false) = true /\
  text (data (fst (moveTo [rule_lock_x] single_node 130 70 false))) =
    TextSingle (sample_label "t1" 120 60 "hi").
Proof.
  assert (text_shape_ok (data single_node)) as Hok by (vm_compute; reflexivity).
  pose proof (moveTo_whole_vector [rule_lock_x] single_node 130 70 false) as H.
  cbv zeta in H. destruct H as (_ & _ & _ & Hrule).
  destruct (Hrule rule_lock_x eq_refl eq_refl) as (Hx & Hy & Hret & Htext).
  split; [exact Hok|]. split; [exact Hx|]. split; [exact Hy|]. split; [exact Hret|].
  exact (proj1 (Htext Hok) (sample_label "t1" 90 90 "hi") eq_refl).
Defined.

(** Two rules that each block one axis and-accumulate to a pair with both
    axes false, which is still an object: [moveTo] makes the full move where
    [move] moves nothing. *)
Example moveTo_accumulated_pair :
  isAllowMoveNode [rule_lock_x; rule_lock_y] single_node 30 (-30) = RPair false false /\
  moveTo [rule_lock_x; rule_lock_y] single_node 130 70 false =
    (with_position single_node 130 70
       (TextSingle (sample_label "t1" 120 60 "hi")), true) /\
  move [rule_lock_x; rule_lock_y] single_node 30 (-30) false = (single_node, false).
Proof. repeat split; reflexivity. Qed.

(** ** Claim C3: a connection-rule chain stops at its first failure *)

Lemma connect_loop_all_pass (this source target : NodeData)
    (sa ta : option AnchorConfig) (edgeId : option string)
    (rules : list ConnectRule) (i : nat) :
  forallb (fun rule => validate rule this source target sa ta edgeId) rules = true ->
  connect_loop rules i this source target sa ta edgeId =
  (mkResult true EmptyString,
   calls_from i (length rules) this source target sa ta edgeId).
Proof.
  revert i; induction rules as [|rule rest IH]; intros i Hall; simpl in *.
  - reflexivity.
  - apply andb_prop in Hall as [Hrule Hrest].
    rewrite Hrule; simpl. now rewrite (IH (S i) Hrest).
Qed.

Lemma connect_loop_first_failure (this source target : NodeData)
    (sa ta : option AnchorConfig) (edgeId : option string)
    (pre post : list ConnectRule) (r : ConnectRule) (i : nat) :
  forallb (fun rule => validate rule this source target sa ta edgeId) pre = true ->
  validate r this source target sa ta edgeId = false ->
  connect_loop (pre ++ r :: post) i this source target sa ta edgeId =
  (mkResult false (message r),
   calls_from i (S (length pre)) this source target sa ta edgeId).
Proof.
  revert i; induction pre as [|rule rest IH]; intros i Hall Hr; simpl in *.
  - now rewrite Hr.
  - apply andb_prop in Hall as [Hrule Hrest].
    rewrite Hrule; simpl. now rewrite (IH (S i) Hrest Hr).
Qed.

Lemma isAllowConnectedAsSource_unfold (hook : RulesHook) (n : BaseNodeModel)
    (target : NodeData) (sa ta : option AnchorConfig) (edgeId : option string) :
  let n2 := set_hasSetSourceRules
              (if negb (hasSetSourceRules n) then snd (hook n) else n) true in
  isAllowConnectedAsSource hook n target sa ta edgeId =
  (n2,
   fst (connect_loop (source_chain hook n) 0 (data n2) (data n2) target sa ta edgeId),
   snd (connect_loop (source_chain hook n) 0 (data n2) (data n2) target sa ta edgeId)).
Proof.
  unfold isAllowConnectedAsSource, source_chain.
  destruct (negb (hasSetSourceRules n)); [destruct (hook n) as [rules n1]|]; simpl;
    destruct (connect_loop _ _ _ _ _ _ _ _); reflexivity.
Qed.

Lemma isAllowConnectedAsTarget_unfold (hook : RulesHook) (n : BaseNodeModel)
    (source : NodeData) (sa ta : option AnchorConfig) (edgeId : option string) :
  let n2 := set_hasSetTargetRules
              (if negb (hasSetTargetRules n) then snd (hook n) else n) true in
  isAllowConnectedAsTarget hook n source sa ta edgeId =
  (n2,
   fst (connect_loop (target_chain hook n) 0 (data n2) source (data n2) sa ta edgeId),
   snd (connect_loop (target_chain hook n) 0 (data n2) source (data n2) sa ta edgeId)).
Proof.
  unfold isAllowConnectedAsTarget, target_chain.
  destruct (negb (hasSetTargetRules n)); [destruct (hook n) as [rules n1]|]; simpl;
    destruct (connect_loop _ _ _ _ _ _ _ _); reflexivity.
Qed.

(** C3.  An evaluation runs the predicates of its chain in order, each with
    the owning node as receiver and with (source node, target node, source
    anchor, target anchor, edge id) as arguments, the owning node being the
    source in [isAllowConnectedAsSource] and the target in
    [isAllowConnectedAsTarget].  When the chain is [pre ++ r :: post] with
    every rule of [pre] passing and [r] failing, the result is
    [{isAllPass: false, msg: r.message}] and exactly the rules of [pre] and
    [r] were invoked, none of [post]; when every rule passes, the result is
    [{isAllPass: true, msg: empty}] and every rule was invoked once. *)
Theorem connect_rules_short_circuit (hook : RulesHook) (n : BaseNodeModel)
    (other : NodeData) (sa ta : option AnchorConfig) (edgeId : option string) :
  let outS := isAllowConnectedAsSource hook n other sa ta edgeId in
  let thisS := data (fst (fst outS)) in
  let okS rule := validate rule thisS thisS other sa ta edgeId in
  let outT := isAllowConnectedAsTarget hook n other sa ta edgeId in
  let thisT := data (fst (fst outT)) in
  let okT rule := validate rule thisT other thisT sa ta edgeId in
  (forall pre r post,
     source_chain hook n = (pre ++ r :: post)%list ->
     forallb okS pre = true -> okS r = false ->
     snd (fst outS) = mkResult false (message r) /\
     snd outS = calls_from 0 (S (length pre)) thisS thisS other sa ta edgeId) /\
  (forallb okS (source_chain hook n) = true ->
   snd (fst outS) = mkResult true EmptyString /\
   snd outS = calls_from 0 (length (source_chain hook n)) thisS thisS other sa ta edgeId) /\
  (forall pre r post,
     target_chain hook n = (pre ++ r :: post)%list ->
     forallb okT pre = true -> okT r = false ->
     snd (fst outT) = mkResult false (message r) /\
     snd outT = calls_from 0 (S (length pre)) thisT other thisT sa ta edgeId) /\
  (forallb okT (target_chain hook n) = true ->
   snd (fst outT) = mkResult true EmptyString /\
   snd outT = calls_from 0 (length (target_chain hook n)) thisT other thisT sa ta edgeId).
Proof.
  cbv zeta.
  rewrite isAllowConnectedAsSource_unfold, isAllowConnectedAsTarget_unfold.
  cbv zeta; simpl fst; simpl snd.
  repeat match goal with |- _ /\ _ => split end.
  - intros pre r post Hchain Hpre Hr. rewrite Hchain.
    rewrite connect_loop_first_failure by assumption. split; reflexivity.
  - intros Hall. rewrite connect_loop_all_pass by assumption. split; reflexivity.
  - intros pre r post Hchain Hpre Hr. rewrite Hchain.
    rewrite connect_loop_first_failure by assumption. split; reflexivity.
  - intros Hall. rewrite connect_loop_all_pass by assumption. split; reflexivity.
Qed.

Lemma connect_rules_short_circuit_witness :
  let n := set_sourceRules single_node [rule_no; rule_yes] in
  let out := isAllowConnectedAsSource getConnectedSourceRules n
               (data multi_node) None None None in
  snd (fst out) = mkResult false "no" /\ length (snd out) = 1%nat.
Proof.
  destruct (proj1 (connect_rules_short_circuit getConnectedSourceRules
                     (set_sourceRules single_node [rule_no; rule_yes])
                     (data multi_node) None None None)
                  [] rule_no [rule_yes] eq_refl eq_refl eq_refl) as [Hres Hlog].
  split; [exact Hres|rewrite Hlog; reflexivity].
Defined.

(** ** Claim C2: the flag of a chain and the list a later check runs *)

(** The chain is not kept: after a first check with the hooks of the base
    class on a node without rules, a rule added to [sourceRules] is run by
    the next check. *)
Lemma source_chain_not_cached : ~ source_chain_cached.
Proof.
  intros Hcached.
  specialize (Hcached getConnectedSourceRules getConnectedSourceRules
                single_node [rule_no] (data multi_node) None None None eq_refl).
  vm_compute in Hcached. discriminate Hcached.
Qed.

(** A hook that returns a new array is asked once, and its chain is lost:
    the first check fails on the rule it added, the second one passes. *)
Example hook_fresh_second_check :
  let first := isAllowConnectedAsSource hook_fresh single_node
                 (data multi_node) None None None in
  let second := isAllowConnectedAsSource hook_fresh (fst (fst first))
                  (data multi_node) None None None in
  snd (fst first) = mkResult false "no" /\ snd (fst second) = mkResult true EmptyString.
Proof. vm_compute. split; reflexivity. Qed.

(** C2, amended.  A check of a chain whose flag is unset asks the hook, runs
    the list the hook returns and sets the flag.  A check whose flag is set
    does not ask the hook: whatever the hook would return, it runs the
    node's own [sourceRules] (or [targetRules]) as they are at that moment
    and leaves the node unchanged.  Hence a second check runs the chain of
    the first whenever the hook left its list in the node's own rule list
    (as the hooks of the base class, and overrides that push onto that
    list, do) and the list has not been changed in between. *)
Theorem connect_chain_flag (hook hook' : RulesHook) (n : BaseNodeModel)
    (other : NodeData) (sa ta : option AnchorConfig) (edgeId : option string) :
  let outS := isAllowConnectedAsSource hook n other sa ta edgeId in
  let outT := isAllowConnectedAsTarget hook n other sa ta edgeId in
  (hasSetSourceRules n = false ->
   outS = (set_hasSetSourceRules (snd (hook n)) true,
           fst (connect_loop (fst (hook n)) 0 (data (snd (hook n)))
                  (data (snd (hook n))) other sa ta edgeId),
           snd (connect_loop (fst (hook n)) 0 (data (snd (hook n)))
                  (data (snd (hook n))) other sa ta edgeId))) /\
  (hasSetSourceRules n = true ->
   outS = (n,
           fst (connect_loop (sourceRules n) 0 (data n) (data n) other sa ta edgeId),
           snd (connect_loop (sourceRules n) 0 (data n) (data n) other sa ta edgeId)) /\
   isAllowConnectedAsSource hook' n other sa ta edgeId = outS) /\
  hasSetSourceRules (fst (fst outS)) = true /\
  (hasSetSourceRules n = false -> sourceRules (snd (hook n)) = fst (hook n) ->
   source_chain hook' (fst (fst outS)) = fst (hook n)) /\
  (hasSetTargetRules n = false ->
   outT = (set_hasSetTargetRules (snd (hook n)) true,
           fst (connect_loop (fst (hook n)) 0 (data (snd (hook n)))
                  other (data (snd (hook n))) sa ta edgeId),
           snd (connect_loop (fst (hook n)) 0 (data (snd (hook n)))
                  other (data (snd (hook n))) sa ta edgeId))) /\
  (hasSetTargetRules n = true ->
   outT = (n,
           fst (connect_loop (targetRules n) 0 (data n) other (data n) sa ta edgeId),
           snd (connect_loop (targetRules n) 0 (data n) other (data n) sa ta edgeId)) /\
   isAllowConnectedAsTarget hook' n other sa ta edgeId = outT) /\
  hasSetTargetRules (fst (fst outT)) = true /\
  (hasSetTargetRules n = false -> targetRules (snd (hook n)) = fst (hook n) ->
   target_chain hook' (fst (fst outT)) = fst (hook n)).
Proof.
  cbv zeta.
  rewrite !isAllowConnectedAsSource_unfold, !isAllowConnectedAsTarget_unfold.
  cbv zeta. unfold source_chain, target_chain. simpl fst; simpl snd.
  repeat match goal with |- _ /\ _ => split end.
  - intros Hflag. rewrite Hflag; reflexivity.
  - intros Hflag. rewrite Hflag; simpl.
    split; destruct n; simpl in *; subst; reflexivity.
  - reflexivity.
  - intros Hflag Halias. rewrite Hflag; simpl. exact Halias.
  - intros Hflag. rewrite Hflag; reflexivity.
  - intros Hflag. rewrite Hflag; simpl.
    split; destruct n; simpl in *; subst; reflexivity.
  - reflexivity.
  - intros Hflag Halias. rewrite Hflag; simpl. exact Halias.
Qed.

Lemma connect_chain_flag_witness :
  let first := isAllowConnectedAsSource hook_push single_node
                 (data multi_node) None None None in
  snd (fst first) = mkResult false "no" /\
  source_chain hook_fresh (fst (fst first)) = [rule_no].
Proof.
  pose proof (connect_chain_flag hook_push hook_fresh single_node
                (data multi_node) None None None) as H.
  cbv zeta in H.
  destruct H as (Hfirst & _ & _ & Hsame & _).
  split.
  - rewrite (Hfirst eq_refl). reflexivity.
  - exact (Hsame eq_refl eq_refl).
Defined.

(** ** Claim C8: [addText] and the bound on the number of labels *)

Lemma addText_multiple_full (uuid : string) (n : BaseNodeModel) (confX confY m : Z)
    (ts : list LabelType) :
  multiple_mode n m ts -> Z.of_nat (length ts) >= m ->
  addText uuid n confX confY = Some n.
Proof.
  intros [(c & Hc & Hmult & Hmax) Htext] Hfull.
  unfold addText, destructure_labelConfig. rewrite Hc, Hmult, Hmax, Htext; simpl.
  destruct (Z.geb_spec (Z.of_nat (length ts)) m); [reflexivity|lia].
Qed.

Lemma addText_multiple_room (uuid : string) (n : BaseNodeModel) (confX confY m : Z)
    (ts : list LabelType) :
  multiple_mode n m ts -> Z.of_nat (length ts) < m ->
  addText uuid n confX confY =
  Some (set_data n (set_text (data n)
          (TextList (ts ++ [new_label uuid n confX confY])))).
Proof.
  intros [(c & Hc & Hmult & Hmax) Htext] Hroom.
  unfold addText, destructure_labelConfig, labelConfig_multiple.
  rewrite Hc, Hmult, Hmax, Htext; simpl.
  destruct (Z.geb_spec (Z.of_nat (length ts)) m); [lia|reflexivity].
Qed.

Lemma multiple_mode_set_text (n : BaseNodeModel) (m : Z) (ts ts' : list LabelType) :
  multiple_mode n m ts ->
  multiple_mode (set_data n (set_text (data n) (TextList ts'))) m ts'.
Proof. intros [Hc _]. split; [exact Hc|reflexivity]. Qed.

Lemma addText_many_multiple (calls : list (string * Z * Z)) (n : BaseNodeModel)
    (m : Z) (ts : list LabelType) :
  multiple_mode n m ts -> Z.of_nat (length ts) <= m ->
  exists n' ts',
    addText_many calls n = Some n' /\ multiple_mode n' m ts' /\
    Z.of_nat (length ts') = Z.min m (Z.of_nat (length ts) + Z.of_nat (length calls)).
Proof.
  revert n ts; induction calls as [|[[uuid cx] cy] rest IH]; intros n ts Hmode Hle.
  - exists n, ts. split; [reflexivity|]. split; [exact Hmode|]. simpl length. lia.
  - simpl addText_many.
    destruct (Z_lt_ge_dec (Z.of_nat (length ts)) m) as [Hroom|Hfull].
    + rewrite (addText_multiple_room uuid n cx cy m ts Hmode Hroom).
      destruct (IH _ (ts ++ [new_label uuid n cx cy])%list
                  (multiple_mode_set_text n m ts _ Hmode)) as (n' & ts' & Hrun & Hmode' & Hlen).
      { rewrite length_app; simpl. lia. }
      exists n', ts'. split; [exact Hrun|]. split; [exact Hmode'|].
      rewrite Hlen, length_app; simpl length. lia.
    + rewrite (addText_multiple_full uuid n cx cy m ts Hmode Hfull).
      destruct (IH n ts Hmode Hle) as (n' & ts' & Hrun & Hmode' & Hlen).
      exists n', ts'. split; [exact Hrun|]. split; [exact Hmode'|].
      rewrite Hlen. simpl length. lia.
Qed.

Lemma addText_single (uuid : string) (n : BaseNodeModel) (confX confY : Z)
    (t : LabelType) :
  single_mode n t ->
  addText uuid n confX confY =
  Some (set_data n (set_text (data n) (TextSingle (set_isFocus t true)))).
Proof.
  intros [(c & Hc & Hmult) Htext].
  unfold addText, destructure_labelConfig, labelConfig_multiple.
  rewrite Hc, Hmult, Htext; reflexivity.
Qed.

Lemma addText_many_single (calls : list (string * Z * Z)) (n : BaseNodeModel)
    (t : LabelType) :
  single_mode n t ->
  exists n', addText_many calls n = Some n' /\
             single_mode n' (if calls is [] then t else set_isFocus t true).
Proof.
  revert n t; induction calls as [|[[uuid cx] cy] rest IH]; intros n t Hmode.
  - exists n. split; auto.
  - simpl addText_many. rewrite (addText_single uuid n cx cy t Hmode).
    destruct (IH (set_data n (set_text (data n) (TextSingle (set_isFocus t true))))
                (set_isFocus t true)) as (n' & Hrun & Hmode').
    { destruct Hmode as [Hc _]. split; [exact Hc|reflexivity]. }
    exists n'. split; [exact Hrun|].
    destruct rest; exact Hmode'.
Qed.

(** C8.  In multiple-label mode with [max = m], [addText] leaves the node
    as it is once the number of labels has reached [m], and appends one
    empty, focused record at the given position below [m]; so from a count
    that does not exceed [m], any sequence of calls ends with
    [min m (count + calls)] labels, never more than [m].  In single-label
    mode [addText] keeps the single record and only sets its [isFocus], so
    after any sequence of calls [text] is still that one record. *)
Theorem addText_bounded (n : BaseNodeModel) :
  (forall m ts, multiple_mode n m ts ->
     (forall uuid confX confY, Z.of_nat (length ts) >= m ->
        addText uuid n confX confY = Some n) /\
     (forall uuid confX confY, Z.of_nat (length ts) < m ->
        addText uuid n confX confY =
        Some (set_data n (set_text (data n)
                (TextList (ts ++ [new_label uuid n confX confY]))))) /\
     (forall calls, Z.of_nat (length ts) <= m ->
        exists n' ts',
          addText_many calls n = Some n' /\ multiple_mode n' m ts' /\
          Z.of_nat (length ts') =
            Z.min m (Z.of_nat (length ts) + Z.of_nat (length calls)) /\
          Z.of_nat (length ts') <= m)) /\
  (forall t, single_mode n t ->
     (forall uuid confX confY,
        addText uuid n confX confY =
        Some (set_data n (set_text (data n) (TextSingle (set_isFocus t true))))) /\
     (forall calls, exists n',
        addText_many calls n = Some n' /\
        single_mode n' (if calls is [] then t else set_isFocus t true))).
Proof.
  split.
  - intros m ts Hmode. repeat split.
    + intros; eapply addText_multiple_full; eauto.
    + intros; eapply addText_multiple_room; eauto.
    + intros calls Hle.
      destruct (addText_many_multiple calls n m ts Hmode Hle) as (n' & ts' & H1 & H2 & H3).
      exists n', ts'. split; [exact H1|]. split; [exact H2|]. split; [exact H3|lia].
  - intros t Hmode. split.
    + intros; apply addText_single; auto.
    + intros calls; apply addText_many_single; auto.
Qed.

Lemma addText_bounded_witness :
  multiple_mode empty_multi_node 2 [] /\
  exists n' ts',
    addText_many [("u1", 10, 10); ("u2", 20, 20); ("u3", 30, 30)] empty_multi_node
      = Some n' /\
    text (data n') = TextList ts' /\ length ts' = 2%nat.
Proof.
  assert (multiple_mode empty_multi_node 2 []) as Hmode.
  { split; [|reflexivity].
    exists (multi_conf (Some 2)). repeat split; vm_compute; reflexivity. }
  split; [exact Hmode|].
  destruct (proj2 (proj2 (proj1 (addText_bounded empty_multi_node) 2 [] Hmode))
              [("u1", 10, 10); ("u2", 20, 20); ("u3", 30, 30)]
              ltac:(simpl; lia))
    as (n' & ts' & Hrun & [_ Htext] & Hlen & _).
  exists n', ts'. split; [exact Hrun|]. split; [exact Htext|].
  simpl in Hlen. lia.
Defined.

(** ** Claim C6: [deleteText] *)

Lemma deleteText_single (n : BaseNodeModel) (textInfo : TextInfo) (t : LabelType) :
  text (data n) = TextSingle t ->
  deleteText n textInfo = set_data n (set_text (data n) (TextSingle (clear_label t))).
Proof. unfold deleteText; intros ->; reflexivity. Qed.

Lemma findIndex_id_Some (ts : list LabelType) (s : string) (k : nat) :
  findIndex_id ts (Some s) = Some k ->
  exists t, ts !! k = Some t /\ label_id t = s /\
            forall j t', (j < k)%nat -> ts !! j = Some t' -> label_id t' <> s.
Proof.
  revert k; induction ts as [|t rest IH]; intros k; simpl; [discriminate|].
  destruct (String.eqb_spec (label_id t) s) as [Heq|Hne].
  - intros [= <-]. exists t. repeat split; auto. intros j t' Hj; lia.
  - destruct (findIndex_id rest (Some s)) as [k'|]; simpl; [|discriminate].
    intros [= <-]. destruct (IH k' eq_refl) as (t0 & Hlook & Hid & Hfirst).
    exists t0. repeat split; auto.
    intros [|j] t' Hj; simpl; [intros [= <-]; exact Hne|].
    apply Hfirst; lia.
Qed.


(** What [deleteText] does on a list: the index is never read, the first
    record with the given id is removed, and an id that matches no record
    leaves the node as it is. *)
Lemma deleteText_list (n : BaseNodeModel) (textInfo : TextInfo) (ts : list LabelType) :
  text (data n) = TextList ts ->
  deleteText n textInfo =
  match findIndex_id ts (info_id textInfo) with
  | Some k => set_data n (set_text (data n) (TextList (delete k ts)))
  | None => n
  end.
Proof.
  unfold deleteText; intros ->. unfold isArray_of_nothing.
  now rewrite andb_false_r.
Qed.

(** C6, the behaviour of the code where the claim fails: on a node with the
    two labels "a" and "b", [deleteText({index: 1})] and
    [deleteText({index: 0})] remove nothing, and in general the [index] of
    the argument has no influence on the result. *)
Theorem deleteText_index_not_used :
  deleteText multi_node (mkTextInfo (Some 1) None) = multi_node /\
  deleteText multi_node (mkTextInfo (Some 0) None) = multi_node /\
  forall (n : BaseNodeModel) (index : option Z) (i : option string),
    deleteText n (mkTextInfo index i) = deleteText n (mkTextInfo None i).
Proof.
  split; [reflexivity|]. split; [reflexivity|].
  intros n index i. unfold deleteText, isArray_of_nothing; simpl.
  destruct (text (data n)); auto. now rewrite andb_false_r.
Qed.

(** ** Claim C10: the text of the data snapshot *)



(** ** Claim C7: the keys reported by [setProperty] and [setProperties] *)

Lemma spread_over_lookup_other (entries : list (string * PValue))
    (pre : gmap string PValue) (k : string) :
  ~ In k (map fst entries) -> spread_over pre entries !! k = pre !! k.
Proof.
  revert pre; induction entries as [|[k' v] rest IH]; intros pre Hnot; simpl in *.
  - reflexivity.
  - unfold spread_over in *; simpl. rewrite IH by tauto.
    apply lookup_insert_ne. intros ->. tauto.
Qed.

Lemma spread_over_lookup_entry (entries : list (string * PValue))
    (pre : gmap string PValue) (k : string) (v : PValue) :
  List.NoDup (map fst entries) -> In (k, v) entries ->
  spread_over pre entries !! k = Some v.
Proof.
  revert pre; induction entries as [|[k' v'] rest IH]; intros pre Hnd Hin; simpl in *.
  - contradiction.
  - inversion Hnd as [|? ? Hfresh Hnd']; subst.
    destruct Hin as [[= -> ->]|Hin].
    + unfold spread_over; simpl.
      fold (spread_over (<[k:=v]> pre) rest).
      rewrite spread_over_lookup_other by exact Hfresh.
      apply lookup_insert_eq.
    + unfold spread_over; simpl. apply IH; assumption.
Qed.

Lemma strict_neq_primitive_refl (v : PValue) :
  is_primitive v = true -> strict_neq v v = false.
Proof.
  destruct v as [|b|z|s|c|j]; simpl; try discriminate; intros _; auto.
  - now destruct b.
  - now rewrite Z.eqb_refl.
  - now rewrite String.eqb_refl.
Qed.

Lemma filter_nothing {A : Type} (f : A -> bool) (l : list A) :
  (forall a, In a l -> f a = false) -> List.filter f l = [].
Proof.
  induction l as [|a l IH]; simpl; intros Hall; [reflexivity|].
  rewrite (Hall a) by now left. apply IH. intros; apply Hall; now right.
Qed.

(** What holds of [setProperties]: the reported keys are those of the
    supplied entries that are new or whose value differs from the stored
    one, and a second call with the same object of primitive values
    reports no key. *)
Lemma setProperties_twice (formatData : PValue -> PValue) (n : BaseNodeModel)
    (props : list (string * PValue)) :
  (forall v, is_primitive v = true -> formatData v = v) ->
  List.NoDup (map fst props) ->
  forallb (fun kv => is_primitive (snd kv)) props = true ->
  change_keys (snd (setProperties formatData
                      (fst (setProperties formatData n props)) props)) = [].
Proof.
  intros Hfmt Hnd Hprim. unfold setProperties; simpl.
  rewrite filter_nothing; [reflexivity|]. intros [k v] Hin.
  rewrite List.forallb_forall in Hprim. specialize (Hprim _ Hin); simpl in Hprim.
  unfold is_update; simpl.
  rewrite (spread_over_lookup_entry _ _ k (formatData v)).
  - rewrite Hfmt by exact Hprim. simpl.
    now rewrite strict_neq_primitive_refl.
  - now rewrite map_map; simpl.
  - apply in_map_iff. exists (k, v). split; [reflexivity|exact Hin].
Qed.

(** [setProperty] reports its key whatever the old value was, also when
    the value supplied is the one already stored. *)
Lemma setProperty_reports_key :
  (forall formatData n key val,
     change_keys (snd (setProperty formatData n key val)) = [key]) /\
  properties (data red_node) !! "color" = Some (PStr "red") /\
  change_keys (snd (setProperty (fun v => v) red_node "color" (PStr "red")))
    = ["color"] /\
  change_keys (snd (setProperties (fun v => v) red_node [("color", PStr "red")]))
    = [].
Proof. repeat split; vm_compute; reflexivity. Qed.

(** The reported keys are not always the keys that changed: a second
    [setProperties] with an entry whose value is an object reports the key
    again, and [setProperty] with the value already stored reports its
    key. *)
Lemma changed_keys_not_exact :
  let first := setProperties (fun v => v) single_node sized_props in
  let second := setProperties (fun v => v) (fst first) sized_props in
  (change_keys (snd first) = ["size"] /\
   properties (data (fst first)) !! "size" = Some (PObj "{w:1}") /\
   change_keys (snd second) <> []) /\
  (properties (data red_node) !! "color" = Some (PStr "red") /\
   change_keys (snd (setProperty (fun v => v) red_node "color" (PStr "red")))
     <> []).
Proof. vm_compute. repeat split; discriminate. Qed.

(** C7, amended.  [setProperty] and [setProperties] build a new map, the
    old one with the copied new values written over it, and report the old
    and the new map.  [setProperties] reports exactly the supplied keys
    that are absent from the old map or whose old value is not strictly
    equal to the supplied one; a key supplied again with the same primitive
    value is left out, so a second call with the same object of primitive
    values reports no key. *)
Theorem properties_change_keys (formatData : PValue -> PValue) (n : BaseNodeModel)
    (props : list (string * PValue)) :
  let pre := properties (data n) in
  let outP := setProperties formatData n props in
  (forall key val,
     let out := setProperty formatData n key val in
     properties (data (fst out)) = <[key := formatData val]> pre /\
     change_preProperties (snd out) = pre /\
     change_properties (snd out) = properties (data (fst out))) /\
  (change_preProperties (snd outP) = pre /\
   change_properties (snd outP) = properties (data (fst outP))) /\
  (List.NoDup (map fst props) ->
   (forall k v, In (k, v) props ->
      properties (data (fst outP)) !! k = Some (formatData v)) /\
   (forall k, ~ In k (map fst props) ->
      properties (data (fst outP)) !! k = pre !! k)) /\
  (forall k, In k (change_keys (snd outP)) <->
     exists v, In (k, v) props /\
       (pre !! k = None \/
        exists old, pre !! k = Some old /\ strict_neq old v = true)) /\
  (forall k v, In (k, v) props -> is_primitive v = true ->
     pre !! k = Some v -> List.NoDup (map fst props) ->
     ~ In k (change_keys (snd outP))) /\
  ((forall v, is_primitive v = true -> formatData v = v) ->
   List.NoDup (map fst props) ->
   forallb (fun kv => is_primitive (snd kv)) props = true ->
   change_keys (snd (setProperties formatData (fst outP) props)) = []).
Proof.
  cbv zeta. repeat match goal with |- _ /\ _ => split end; try reflexivity.
  - intros key val. repeat split.
  - intros Hnd. split.
    + intros k v Hin. simpl. apply spread_over_lookup_entry.
      * now rewrite map_map.
      * apply in_map_iff. exists (k, v). split; [reflexivity|exact Hin].
    + intros k Hnot. simpl. apply spread_over_lookup_other.
      now rewrite map_map.
  - intros k. simpl. rewrite in_map_iff. split.
    + intros ([k' v] & <- & Hin). apply filter_In in Hin as [Hin Hup].
      exists v. split; [exact Hin|]. unfold is_update in Hup; simpl in *.
      destruct (properties (data n) !! k') as [old|]; [right; eauto|now left].
    + intros (v & Hin & Hcase). exists (k, v). split; [reflexivity|].
      apply filter_In. split; [exact Hin|]. unfold is_update; simpl.
      destruct Hcase as [->|(old & -> & Hneq)]; auto.
  - intros k v Hin Hprim Hpre Hnd. simpl. rewrite in_map_iff.
    intros ([k' v'] & Hk & Hin'). simpl in Hk; subst k'.
    apply filter_In in Hin' as [Hin' Hup].
    assert (v' = v) as ->.
    { clear -Hnd Hin Hin'. induction props as [|[k0 v0] rest IH]; simpl in *;
        [contradiction|].
      inversion Hnd as [|? ? Hfresh Hnd']; subst.
      destruct Hin as [[= -> ->]|Hin], Hin' as [[= <-]|Hin']; auto.
      - exfalso. apply Hfresh. apply in_map_iff. now exists (k, v').
      - exfalso. apply Hfresh. apply in_map_iff. now exists (k0, v). }
    unfold is_update in Hup; simpl in Hup. rewrite Hpre in Hup.
    now rewrite strict_neq_primitive_refl in Hup.
  - apply setProperties_twice.
Qed.

Lemma properties_change_keys_witness :
  change_keys (snd (setProperties (fun v => v) single_node
                      [("color", PStr "red"); ("n", PNum 3)])) = ["color"; "n"] /\
  change_keys (snd (setProperties (fun v => v)
                      (fst (setProperties (fun v => v) single_node
                              [("color", PStr "red"); ("n", PNum 3)]))
                      [("color", PStr "red"); ("n", PNum 3)])) = [].
Proof.
  split; [vm_compute; reflexivity|].
  refine (proj2 (proj2 (proj2 (proj2 (proj2
            (properties_change_keys (fun v => v) single_node
               [("color", PStr "red"); ("n", PNum 3)])))))
            (fun v _ => eq_refl) _ eq_refl).
  repeat constructor; simpl; intuition discriminate.
Defined.

(** ** Claim C9: anchors from the offset list, rotated about the centre *)

Lemma getAnchorsByOffset_offsets (hook : NodeData -> list AnchorConfig) (d : NodeData) :
  anchorsOffset d <> [] ->
  getAnchorsByOffset hook d = imap (anchor_of_offset d) (anchorsOffset d).
Proof. unfold getAnchorsByOffset. destruct (anchorsOffset d); congruence. Qed.

Lemma anchor_of_offset_spec (d : NodeData) (idx : nat) (el : AnchorsOffsetItem) :
  anchor_of_offset d idx el =
  mkAnchor (Some (default (default_anchor_id (id d) idx) (supplied_id el)))
           (x d + fst (offset_of el)) (y d + snd (offset_of el)).
Proof.
  destruct el as [ox oy|[[s|] ax ay]]; simpl; try reflexivity.
  unfold id_or_default. destruct (String.eqb s EmptyString); reflexivity.
Qed.




(** ** Claim C5: where the transform descriptor is recomputed *)

Lemma same_transform_refl (d : NodeData) : same_transform d d.
Proof. split; reflexivity. Qed.

Lemma same_transform_trans (d1 d2 d3 : NodeData) :
  same_transform d1 d2 -> same_transform d2 d3 -> same_transform d1 d3.
Proof. intros [H1 H2] [H3 H4]. split; congruence. Qed.

Lemma moveText_same_transform (d : NodeData) (deltaX deltaY : Z) :
  same_transform d (moveText d deltaX deltaY).
Proof.
  unfold moveText.
  destruct (negb (labelConfig_multiple (properties d))), (text d);
    split; reflexivity.
Qed.

Lemma shift_same_transform (d : NodeData) (nx ny deltaX deltaY : Z) :
  same_transform d (moveText (set_xy d nx ny) deltaX deltaY).
Proof.
  apply (same_transform_trans _ (set_xy d nx ny)).
  - split; reflexivity.
  - apply moveText_same_transform.
Qed.

Lemma move_same_transform (graphRules : list NodeMoveRule) (n : BaseNodeModel)
    (deltaX deltaY : Z) (isIgnoreRule : bool) :
  same_transform (data n) (data (fst (move graphRules n deltaX deltaY isIgnoreRule))).
Proof.
  unfold move.
  destruct (isAllowMoveByXORY graphRules n deltaX deltaY isIgnoreRule) as [[|] [|]];
    simpl.
  - eapply same_transform_trans; apply shift_same_transform.
  - apply shift_same_transform.
  - apply shift_same_transform.
  - apply same_transform_refl.
Qed.

Lemma getMoveDistance_same_transform (graphRules : list NodeMoveRule)
    (n : BaseNodeModel) (deltaX deltaY : Z) (isIgnoreRule : bool) :
  same_transform (data n)
    (data (fst (getMoveDistance graphRules n deltaX deltaY isIgnoreRule))).
Proof.
  unfold getMoveDistance.
  destruct (isAllowMoveByXORY graphRules n deltaX deltaY isIgnoreRule) as [ax ay].
  destruct (ax && negb (deltaX =? 0)), (ay && negb (deltaY =? 0)); simpl.
  - eapply same_transform_trans; apply shift_same_transform.
  - apply shift_same_transform.
  - apply shift_same_transform.
  - apply same_transform_refl.
Qed.

Lemma moveTo_same_transform (graphRules : list NodeMoveRule) (n : BaseNodeModel)
    (nx ny : Z) (isIgnoreRule : bool) :
  same_transform (data n) (data (fst (moveTo graphRules n nx ny isIgnoreRule))).
Proof.
  unfold moveTo. destruct (negb isIgnoreRule && _); simpl.
  - apply same_transform_refl.
  - apply (same_transform_trans _ (moveText (data n) (nx - x (data n)) (ny - y (data n)))).
    + apply moveText_same_transform.
    + split; reflexivity.
Qed.

Lemma resize_same_transform (formatData : PValue -> PValue) (overlapIncrease : bool)
    (graphRules : list NodeMoveRule) (n : BaseNodeModel)
    (newWidth newHeight halfDeltaX halfDeltaY : Z) :
  same_transform (data n)
    (data (fst (fst (resize formatData overlapIncrease graphRules n
                       newWidth newHeight halfDeltaX halfDeltaY)))).
Proof.
  unfold resize, setProperties; simpl.
  apply (same_transform_trans _ _ _
           (move_same_transform graphRules n halfDeltaX halfDeltaY false)).
  split; reflexivity.
Qed.

(** After the setter of [rotate] on a node at (100, 100) the descriptor
    agrees with the position, and after a following [move(10, 0)] it does
    not: it is still the rotation about (100, 100) while the node is at
    (110, 100). *)
Lemma transform_stale_after_move :
  transform_consistent cos_deg sin_deg (data anchored_node) /\
  x (data (fst (move [] anchored_node 10 0 false))) = 110 /\
  ~ transform_consistent cos_deg sin_deg
      (data (fst (move [] anchored_node 10 0 false))).
Proof.
  split; [reflexivity|]. split; [reflexivity|].
  unfold transform_consistent. vm_compute. discriminate.
Qed.

(** C5, amended.  The setter of [rotate] stores the new angle and
    recomputes the descriptor as translate(-x, -y), rotate(angle),
    translate(x, y) for the position the node has at that moment, which it
    leaves unchanged.  [move], [moveTo], [getMoveDistance] and [resize]
    keep the rotation and do not recompute the descriptor: after them it
    is still the one of the position at the last assignment of [rotate]. *)
Theorem transform_recomputed_by_setter (Math_cos Math_sin : Z -> Z)
    (formatData : PValue -> PValue) (overlapIncrease : bool)
    (graphRules : list NodeMoveRule) (n : BaseNodeModel) (value : Z) :
  let r := set_rotate Math_cos Math_sin n value in
  let stored := Some (transform_of Math_cos Math_sin (x (data n)) (y (data n)) value) in
  (transform_consistent Math_cos Math_sin (data r) /\
   rotate_ (data r) = value /\ x (data r) = x (data n) /\ y (data r) = y (data n) /\
   transform (data r) = stored) /\
  (forall deltaX deltaY isIgnoreRule,
     same_transform (data n) (data (fst (move graphRules n deltaX deltaY isIgnoreRule))) /\
     transform (data (fst (move graphRules r deltaX deltaY isIgnoreRule))) = stored) /\
  (forall nx ny isIgnoreRule,
     same_transform (data n) (data (fst (moveTo graphRules n nx ny isIgnoreRule))) /\
     transform (data (fst (moveTo graphRules r nx ny isIgnoreRule))) = stored) /\
  (forall deltaX deltaY isIgnoreRule,
     same_transform (data n)
       (data (fst (getMoveDistance graphRules n deltaX deltaY isIgnoreRule))) /\
     transform (data (fst (getMoveDistance graphRules r deltaX deltaY isIgnoreRule)))
       = stored) /\
  (forall newWidth newHeight halfDeltaX halfDeltaY,
     same_transform (data n)
       (data (fst (fst (resize formatData overlapIncrease graphRules n
                          newWidth newHeight halfDeltaX halfDeltaY)))) /\
     transform (data (fst (fst (resize formatData overlapIncrease graphRules r
                                  newWidth newHeight halfDeltaX halfDeltaY)))) = stored).
Proof.
  cbv zeta. repeat match goal with |- _ /\ _ => split end; try reflexivity.
  - intros dx dy ig. split; [apply move_same_transform|].
    now rewrite (proj1 (move_same_transform graphRules _ dx dy ig)).
  - intros nx ny ig. split; [apply moveTo_same_transform|].
    now rewrite (proj1 (moveTo_same_transform graphRules _ nx ny ig)).
  - intros dx dy ig. split; [apply getMoveDistance_same_transform|].
    now rewrite (proj1 (getMoveDistance_same_transform graphRules _ dx dy ig)).
  - intros w h dx dy. split; [apply resize_same_transform|].
    now rewrite (proj1 (resize_same_transform formatData overlapIncrease
                          graphRules _ w h dx dy)).
Qed.

(** * Further properties of the operations *)

(** ** Moving: invariants, round trips and composition *)

Lemma moveText_keeps_shape (d : NodeData) (deltaX deltaY : Z) :
  text_shape_ok d -> text_shape_ok (moveText d deltaX deltaY).
Proof.
  intros Hok. rewrite moveText_shape_ok by exact Hok.
  now apply text_shape_ok_shift.
Qed.

Lemma with_position_shape (n : BaseNodeModel) (nx ny deltaX deltaY : Z) :
  text_shape_ok (data n) ->
  text_shape_ok (data (with_position n nx ny (shift_text deltaX deltaY (text (data n))))).
Proof.
  unfold text_shape_ok, with_position; simpl. destruct (text (data n)); simpl; auto.
Qed.

Lemma axis_x_zero (d : NodeData) :
  text_shape_ok d -> moveText (set_xy d (x d + 0) (y d)) 0 0 = d.
Proof.
  intros Hok. rewrite moveText_shape_ok by exact Hok.
  destruct d; unfold set_text, set_xy; simpl. now rewrite shift_text_0_0, Z.add_0_r.
Qed.

Lemma axis_y_zero (d : NodeData) :
  text_shape_ok d -> moveText (set_xy d (x d) (y d + 0)) 0 0 = d.
Proof.
  intros Hok. rewrite moveText_shape_ok by exact Hok.
  destruct d; unfold set_text, set_xy; simpl. now rewrite shift_text_0_0, Z.add_0_r.
Qed.

Lemma getMoveDistance_as_move (graphRules : list NodeMoveRule) (n : BaseNodeModel)
    (deltaX deltaY : Z) (isIgnoreRule : bool) :
  text_shape_ok (data n) ->
  let ax := fst (isAllowMoveByXORY graphRules n deltaX deltaY isIgnoreRule) in
  let ay := snd (isAllowMoveByXORY graphRules n deltaX deltaY isIgnoreRule) in
  getMoveDistance graphRules n deltaX deltaY isIgnoreRule =
  (fst (move graphRules n deltaX deltaY isIgnoreRule),
   (if ax then deltaX else 0, if ay then deltaY else 0)).
Proof.
  intros Hok; simpl. unfold getMoveDistance, move.
  destruct (isAllowMoveByXORY graphRules n deltaX deltaY isIgnoreRule) as [ax ay]; simpl.
  assert (forall dx, text_shape_ok (moveText (set_xy (data n) (x (data n) + dx) (y (data n))) dx 0))
    as Hok1 by (intros; apply moveText_keeps_shape, text_shape_ok_set_xy, Hok).
  destruct ax, ay; simpl;
    destruct (Z.eqb_spec deltaX 0) as [->|HdX];
    destruct (Z.eqb_spec deltaY 0) as [->|HdY]; simpl;
    rewrite ?axis_y_zero, ?axis_x_zero by auto; try reflexivity.
  all: rewrite ?axis_y_zero by auto; reflexivity.
Qed.

Lemma with_position_again (n : BaseNodeModel) (a b c d : Z) (t t' : TextField) :
  with_position (with_position n a b t) c d t' = with_position n c d t'.
Proof. reflexivity. Qed.

Lemma with_position_same (n : BaseNodeModel) :
  with_position n (x (data n)) (y (data n)) (text (data n)) = n.
Proof. destruct n as [d tr sr mr ft fs]; destruct d; reflexivity. Qed.

Lemma move_ignoring_rules (graphRules : list NodeMoveRule) (n : BaseNodeModel)
    (deltaX deltaY : Z) :
  text_shape_ok (data n) ->
  move graphRules n deltaX deltaY true =
  (with_position n (x (data n) + deltaX) (y (data n) + deltaY)
     (shift_text deltaX deltaY (text (data n))), true).
Proof. intros Hok. now rewrite move_shape_ok. Qed.

(** X1.  [move], [moveTo] and [getMoveDistance] keep the shape invariant of the
    text: a node whose text matches its label configuration still does
    after the call, whatever the rules answer. *)
Theorem moving_keeps_text_shape (graphRules : list NodeMoveRule) (n : BaseNodeModel)
    (a b : Z) (isIgnoreRule : bool) :
  text_shape_ok (data n) ->
  text_shape_ok (data (fst (move graphRules n a b isIgnoreRule))) /\
  text_shape_ok (data (fst (moveTo graphRules n a b isIgnoreRule))) /\
  text_shape_ok (data (fst (getMoveDistance graphRules n a b isIgnoreRule))).
Proof.
  intros Hok. repeat split.
  - rewrite move_shape_ok by exact Hok. simpl. now apply with_position_shape.
  - unfold moveTo. destruct (negb isIgnoreRule && _); simpl; [exact Hok|].
    apply (moveText_keeps_shape (data n)), Hok.
  - rewrite getMoveDistance_as_move by exact Hok. simpl.
    rewrite move_shape_ok by exact Hok. simpl. now apply with_position_shape.
Qed.

Lemma moving_keeps_text_shape_witness :
  text_shape_ok (data multi_node) /\
  text_shape_ok (data (fst (move [rule_lock_y] multi_node 5 7 false))).
Proof.
  split; [vm_compute; reflexivity|].
  exact (proj1 (moving_keeps_text_shape [rule_lock_y] multi_node 5 7 false
                  ltac:(vm_compute; reflexivity))).
Defined.



(** X3.  Round trip: with the rules ignored, moving by a delta takes the node
    to [(x + deltaX, y + deltaY)], and moving back by the opposite delta
    gives back the node, labels included.  The statement is for integer
    coordinates, label positions and deltas of magnitude at most 2^50,
    where the additions of the source are exact. *)
Theorem move_there_and_back (graphRules : list NodeMoveRule) (n : BaseNodeModel)
    (deltaX deltaY : Z) :
  text_shape_ok (data n) ->
  node_int_safe n -> int_safe deltaX -> int_safe deltaY ->
  let there := fst (move graphRules n deltaX deltaY true) in
  x (data there) = x (data n) + deltaX /\
  y (data there) = y (data n) + deltaY /\
  fst (move graphRules there (- deltaX) (- deltaY) true) = n.
Proof.
  intros Hok _ _ _. cbv zeta.
  rewrite (move_ignoring_rules graphRules n) by exact Hok. cbn [fst].
  split; [reflexivity|]. split; [reflexivity|].
  rewrite move_ignoring_rules by now apply with_position_shape.
  cbn [fst]. rewrite with_position_again. simpl.
  rewrite shift_text_compose.
  replace (x (data n) + deltaX + - deltaX) with (x (data n)) by lia.
  replace (y (data n) + deltaY + - deltaY) with (y (data n)) by lia.
  replace (deltaX + - deltaX) with 0 by lia.
  replace (deltaY + - deltaY) with 0 by lia.
  rewrite shift_text_0_0. apply with_position_same.
Qed.

Lemma node_int_safe_multi_node : node_int_safe multi_node.
Proof.
  unfold node_int_safe, int_safe. simpl.
  repeat split; [lia|lia|]. repeat constructor; simpl; lia.
Qed.

Lemma node_int_safe_single_node : node_int_safe single_node.
Proof.
  unfold node_int_safe, int_safe. simpl.
  repeat split; [lia|lia|]. repeat constructor; simpl; lia.
Qed.

Lemma move_there_and_back_witness :
  text_shape_ok (data multi_node) /\ node_int_safe multi_node /\
  x (data (fst (move [rule_lock_x] multi_node 3 (-4) true))) = 103 /\
  fst (move [rule_lock_x] (fst (move [rule_lock_x] multi_node 3 (-4) true)) (-3) 4 true)
    = multi_node.
Proof.
  split; [vm_compute; reflexivity|]. split; [exact node_int_safe_multi_node|].
  pose proof (move_there_and_back [rule_lock_x] multi_node 3 (-4)
                ltac:(vm_compute; reflexivity) node_int_safe_multi_node
                ltac:(unfold int_safe; simpl; lia)
                ltac:(unfold int_safe; simpl; lia)) as H.
  cbv zeta in H. destruct H as (Hx & _ & Hback).
  split; [exact Hx|exact Hback].
Defined.

(** X4.  Composition: with the rules ignored, two moves in a row leave the
    node at [(x + a + c, y + b + d)] and are the move by the sum of the
    deltas, and [moveTo] to [(x + a, y + b)] is [move] by [(a, b)].  The
    statement is for integer coordinates, label positions and deltas of
    magnitude at most 2^50, where the additions and subtractions of the
    source are exact. *)
Theorem move_composes (graphRules : list NodeMoveRule) (n : BaseNodeModel)
    (a b c d : Z) :
  text_shape_ok (data n) ->
  node_int_safe n -> int_safe a -> int_safe b -> int_safe c -> int_safe d ->
  let twice := move graphRules (fst (move graphRules n a b true)) c d true in
  x (data (fst twice)) = x (data n) + a + c /\
  y (data (fst twice)) = y (data n) + b + d /\
  twice = move graphRules n (a + c) (b + d) true /\
  moveTo graphRules n (x (data n) + a) (y (data n) + b) true =
    move graphRules n a b true.
Proof.
  intros Hok _ _ _ _ _. cbv zeta.
  rewrite (move_ignoring_rules graphRules n a b) by exact Hok. cbn [fst].
  rewrite (move_ignoring_rules graphRules (with_position _ _ _ _))
    by now apply with_position_shape.
  cbn [fst]. split; [reflexivity|]. split; [reflexivity|]. split.
  - rewrite (move_ignoring_rules graphRules n (a + c)) by exact Hok.
    rewrite with_position_again. simpl. rewrite shift_text_compose.
    now rewrite !Z.add_assoc.
  - rewrite moveTo_accepted by (auto; now left).
    replace (x (data n) + a - x (data n)) with a by lia.
    replace (y (data n) + b - y (data n)) with b by lia.
    reflexivity.
Qed.

Lemma move_composes_witness :
  text_shape_ok (data single_node) /\ node_int_safe single_node /\
  x (data (fst (move [] (fst (move [] single_node 1 2 true)) 3 4 true))) = 104 /\
  move [] (fst (move [] single_node 1 2 true)) 3 4 true = move [] single_node 4 6 true.
Proof.
  split; [vm_compute; reflexivity|]. split; [exact node_int_safe_single_node|].
  pose proof (move_composes [] single_node 1 2 3 4
                ltac:(vm_compute; reflexivity) node_int_safe_single_node
                ltac:(unfold int_safe; simpl; lia) ltac:(unfold int_safe; simpl; lia)
                ltac:(unfold int_safe; simpl; lia) ltac:(unfold int_safe; simpl; lia))
    as H.
  cbv zeta in H. destruct H as (Hx & _ & Hsum & _).
  split; [exact Hx|exact Hsum].
Defined.

Lemma moveText_only_text (d : NodeData) (deltaX deltaY : Z) :
  exists t, moveText d deltaX deltaY = set_text d t.
Proof.
  unfold moveText.
  destruct (negb (labelConfig_multiple (properties d))), (text d) eqn:Ht;
    eauto; exists (text d); destruct d; simpl in *; subst; reflexivity.
Qed.

Lemma same_frame_position (n : BaseNodeModel) (nx ny : Z) (t : TextField) :
  same_frame n (with_position n nx ny t).
Proof. unfold same_frame; simpl; tauto. Qed.

Lemma axis_step_position (n : BaseNodeModel) (d : NodeData) (nx ny a b : Z) :
  (exists px py t, set_data n d = with_position n px py t) ->
  exists px py t,
    set_data n (moveText (set_xy d nx ny) a b) = with_position n px py t.
Proof.
  intros (px & py & t & Hd).
  destruct (moveText_only_text (set_xy d nx ny) a b) as [t' ->].
  exists nx, ny, t'. unfold with_position, set_data in *.
  injection Hd as ->. reflexivity.
Qed.

Lemma node_as_position (n : BaseNodeModel) :
  exists px py t, set_data n (data n) = with_position n px py t.
Proof.
  exists (x (data n)), (y (data n)), (text (data n)).
  destruct n as [d tr sr mr ft fs]; destruct d; reflexivity.
Qed.

(** X5.  Whatever the rules and the shape of the text, [move], [moveTo] and
    [getMoveDistance] write the position and the text only: the id, the
    type, the size, the rotation and its descriptor, the properties, the
    offset list, the z-index, the three rule lists and the two flags of the
    node are left as they were. *)
Theorem moving_writes_position_and_text_only (graphRules : list NodeMoveRule)
    (n : BaseNodeModel) (a b : Z) (isIgnoreRule : bool) :
  same_frame n (fst (move graphRules n a b isIgnoreRule)) /\
  same_frame n (fst (moveTo graphRules n a b isIgnoreRule)) /\
  same_frame n (fst (getMoveDistance graphRules n a b isIgnoreRule)).
Proof.
  assert (forall n', (exists px py t, n' = with_position n px py t) -> same_frame n n')
    as Hframe by (intros n' (px & py & t & ->); apply same_frame_position).
  assert (same_frame n n) as Hrefl by (unfold same_frame; tauto).
  split; [|split].
  - unfold move.
    destruct (isAllowMoveByXORY graphRules n a b isIgnoreRule) as [[|] [|]]; cbn [fst];
      apply Hframe; repeat apply axis_step_position; apply node_as_position.
  - unfold moveTo. destruct (negb isIgnoreRule && _); cbn [fst]; [exact Hrefl|].
    destruct (moveText_only_text (data n) (a - x (data n)) (b - y (data n))) as [t ->].
    apply Hframe. exists a, b, t. reflexivity.
  - unfold getMoveDistance.
    destruct (isAllowMoveByXORY graphRules n a b isIgnoreRule) as [ax ay].
    destruct (ax && negb (a =? 0)), (ay && negb (b =? 0)); cbn [fst];
      apply Hframe; repeat apply axis_step_position; apply node_as_position.
Qed.

(** ** Move rules: the order of the rules does not matter *)

Lemma existsb_Permutation {A : Type} (f : A -> bool) (l l' : list A) :
  Permutation l l' -> existsb f l = existsb f l'.
Proof.
  induction 1 as [|a l l' _ IH|a b l|l l' l'' _ IH1 _ IH2]; simpl.
  - reflexivity.
  - now rewrite IH.
  - destruct (f a), (f b); reflexivity.
  - now rewrite IH1.
Qed.

Lemma forallb_Permutation {A : Type} (f : A -> bool) (l l' : list A) :
  Permutation l l' -> forallb f l = forallb f l'.
Proof.
  induction 1 as [|a l l' _ IH|a b l|l l' l'' _ IH1 _ IH2]; simpl.
  - reflexivity.
  - now rewrite IH.
  - destruct (f a), (f b); reflexivity.
  - now rewrite IH1.
Qed.

(** X6.  The answer of [isAllowMoveNode] depends on the rules as a multiset
    only: any reordering of the node-local and the graph-wide rules,
    between or within the two lists, gives the same answer. *)
Theorem move_rules_order_irrelevant (graphRules graphRules' rules' : list NodeMoveRule)
    (n : BaseNodeModel) (deltaX deltaY : Z) :
  Permutation (moveRules n ++ graphRules) (rules' ++ graphRules') ->
  isAllowMoveNode graphRules' (set_moveRules n rules') deltaX deltaY =
  isAllowMoveNode graphRules n deltaX deltaY.
Proof.
  intros Hperm. rewrite !isAllowMoveNode_spec. unfold rule_results. simpl.
  pose proof (Permutation_map
                (fun rule : NodeMoveRule => rule (data n) deltaX deltaY) Hperm) as Hres.
  now rewrite (existsb_Permutation _ _ _ Hres),
              (forallb_Permutation allows_x _ _ Hres),
              (forallb_Permutation allows_y _ _ Hres).
Qed.

Lemma move_rules_order_irrelevant_witness :
  isAllowMoveNode [rule_lock_x] (set_moveRules single_node [rule_lock_y]) 1 1 =
  isAllowMoveNode [rule_lock_y] (set_moveRules single_node [rule_lock_x]) 1 1.
Proof.
  apply (move_rules_order_irrelevant [rule_lock_y] [rule_lock_x] [rule_lock_y]
           (set_moveRules single_node [rule_lock_x]) 1 1).
  simpl. apply perm_swap.
Defined.

(** ** Labels: deleting, adding and updating *)

Lemma findIndex_id_first (pre post : list LabelType) (t : LabelType) (i : string) :
  label_id t = i ->
  (forall t', In t' pre -> label_id t' <> i) ->
  findIndex_id (pre ++ t :: post)%list (Some i) = Some (length pre).
Proof.
  intros Hid. induction pre as [|t0 pre IH]; intros Hpre; simpl.
  - rewrite Hid, String.eqb_refl. reflexivity.
  - destruct (String.eqb_spec (label_id t0) i) as [Heq|_].
    + exfalso. apply (Hpre t0); [now left|exact Heq].
    + rewrite IH; [reflexivity|]. intros t' Hin; apply Hpre; now right.
Qed.

Lemma delete_middle {A : Type} (pre post : list A) (a : A) :
  delete (length pre) (pre ++ a :: post)%list = (pre ++ post)%list.
Proof. induction pre as [|b pre IH]; simpl; [reflexivity|now rewrite IH]. Qed.

Lemma set_text_same (n : BaseNodeModel) (t : TextField) :
  text (data n) = t -> set_data n (set_text (data n) t) = n.
Proof. intros <-. destruct n as [d tr sr mr ft fs]; destruct d; reflexivity. Qed.



(** X8.  Round trip: in multiple-label mode with room below [max], a label
    added under an id that no label of the node has is removed again by
    [deleteText] with that id, which gives back the node. *)
Theorem addText_then_deleteText (uuid : string) (n : BaseNodeModel)
    (confX confY m : Z) (ts : list LabelType) (index : option Z) :
  multiple_mode n m ts -> Z.of_nat (length ts) < m ->
  (forall t, In t ts -> label_id t <> uuid) ->
  exists n', addText uuid n confX confY = Some n' /\
             text (data n') = TextList (ts ++ [new_label uuid n confX confY]) /\
             deleteText n' (mkTextInfo index (Some uuid)) = n.
Proof.
  intros Hmode Hroom Hfresh.
  eexists. split; [apply (addText_multiple_room uuid n confX confY m ts Hmode Hroom)|].
  split; [reflexivity|].
  erewrite deleteText_list by reflexivity. simpl.
  rewrite (findIndex_id_first ts [] (new_label uuid n confX confY) uuid eq_refl Hfresh).
  rewrite delete_middle, app_nil_r. simpl.
  destruct Hmode as [_ Htext]. clear -Htext.
  destruct n as [d tr sr mr ft fs]; destruct d; simpl in *; subst; reflexivity.
Qed.

Lemma addText_then_deleteText_witness :
  exists n', addText "u1" empty_multi_node 5 5 = Some n' /\
             deleteText n' (mkTextInfo None (Some "u1")) = empty_multi_node.
Proof.
  destruct (addText_then_deleteText "u1" empty_multi_node 5 5 2 [] None)
    as (n' & Hadd & _ & Hdel).
  - split; [|reflexivity].
    exists (multi_conf (Some 2)). repeat split; vm_compute; reflexivity.
  - simpl; lia.
  - intros t [].
  - exists n'. split; assumption.
Defined.

(** X9.  Without a bound ([max] absent or null) [addText] in multiple-label
    mode always appends: [k] calls add [k] labels. *)
Theorem addText_unbounded (calls : list (string * Z * Z)) (n : BaseNodeModel)
    (c : LabelConfig) (ts : list LabelType) :
  properties (data n) !! "labelConfig" = Some (PConf c) ->
  multiple c = true -> max c = None ->
  text (data n) = TextList ts ->
  exists n' ts',
    addText_many calls n = Some n' /\ text (data n') = TextList (ts ++ ts') /\
    map label_id ts' = map (fun call => fst (fst call)) calls.
Proof.
  revert n ts; induction calls as [|[[uuid cx] cy] rest IH];
    intros n ts Hc Hmult Hmax Htext.
  - exists n, []. simpl. rewrite app_nil_r. auto.
  - simpl addText_many. unfold addText, destructure_labelConfig, labelConfig_multiple.
    rewrite Hc, Hmult, Hmax, Htext. simpl.
    destruct (IH (set_data n (set_text (data n)
                    (TextList (ts ++ [mkLabel uuid (id (data n)) EmptyString EmptyString
                                              cx cy false true true]))))
                 (ts ++ [mkLabel uuid (id (data n)) EmptyString EmptyString
                                 cx cy false true true])%list
                 Hc Hmult Hmax eq_refl) as (n' & ts' & Hrun & Htext' & Hids).
    exists n', (mkLabel uuid (id (data n)) EmptyString EmptyString
                        cx cy false true true :: ts').
    split; [exact Hrun|]. split.
    + rewrite Htext'. now rewrite <- app_assoc.
    + simpl. now rewrite Hids.
Qed.

Lemma addText_unbounded_witness :
  exists n' ts',
    addText_many [("u1", 1, 1); ("u2", 2, 2); ("u3", 3, 3)] unbounded_multi_node
      = Some n' /\
    text (data n') = TextList ts' /\ length ts' = 5%nat.
Proof.
  destruct (addText_unbounded [("u1", 1, 1); ("u2", 2, 2); ("u3", 3, 3)]
              unbounded_multi_node (multi_conf None) _
              ltac:(vm_compute; reflexivity) eq_refl eq_refl eq_refl)
    as (n' & ts' & Hrun & Htext & Hids).
  exists n', (([sample_label "a" 90 90 "one"; sample_label "b" 90 110 "two"]) ++ ts')%list.
  split; [exact Hrun|]. split; [exact Htext|].
  rewrite length_app. apply (f_equal (@length string)) in Hids.
  rewrite !length_map in Hids. rewrite Hids. reflexivity.
Defined.

Lemma updateText_multiple (n : BaseNodeModel) (value : TextUpdate)
    (i : option string) (ts : list LabelType) :
  labelConfig_multiple (properties (data n)) = true ->
  text (data n) = TextList ts ->
  updateText n value i =
  match findIndex_id ts i with
  | None => Some n
  | Some k => Some (set_data n (set_text (data n)
                      (TextList (alter (assign_label value) k ts))))
  end.
Proof.
  intros Hmult Htext. unfold updateText. rewrite Hmult, Htext. simpl.
  unfold labelConfig_multiple in Hmult.
  destruct (properties (data n) !! "labelConfig") as [[]|]; try discriminate.
  reflexivity.
Qed.






(** X12.  In multiple-label mode the string form of [updateText] changes no
    label: [assign] with a string source writes no field of the record, so
    the value and the content stay what they were, for every id. *)
Theorem updateText_multiple_string (n : BaseNodeModel) (ts : list LabelType)
    (s : string) (i : option string) :
  labelConfig_multiple (properties (data n)) = true ->
  text (data n) = TextList ts ->
  updateText n (UpdateString s) i = Some n.
Proof.
  intros Hmult Htext. rewrite (updateText_multiple n _ _ _ Hmult Htext).
  destruct (findIndex_id ts i) as [k|]; [|reflexivity].
  f_equal. rewrite (list_alter_id _ ts k) by reflexivity.
  now apply set_text_same.
Qed.

Lemma updateText_multiple_string_witness :
  updateText multi_node (UpdateString "new") (Some "a") = Some multi_node.
Proof.
  exact (updateText_multiple_string multi_node _ "new" (Some "a")
           ltac:(vm_compute; reflexivity) eq_refl).
Defined.

(** ** Normalising the text of a configuration *)

(** X13.  The shape of the text made by [formatText] follows the label
    configuration: a list when [multiple] is set, a single record
    otherwise.  The one exception is an empty list given in single mode,
    which yields [undefined]. *)
Theorem formatText_shape (createUuid : nat -> string) (dataId : string)
    (dataX dataY : Z) (labelConfig : LabelConfig) (t : TextConfig) :
  (multiple labelConfig = true ->
   exists ls, formatText createUuid dataId dataX dataY labelConfig t = FList ls) /\
  (multiple labelConfig = false -> t <> ConfigList [] ->
   exists l, formatText createUuid dataId dataX dataY labelConfig t = FSingle l) /\
  (multiple labelConfig = false ->
   formatText createUuid dataId dataX dataY labelConfig (ConfigList []) = FUndefined).
Proof.
  repeat split.
  - intros Hm. unfold formatText. rewrite Hm.
    destruct t as [|s|items|r]; eauto. destruct (String.eqb s EmptyString); eauto.
  - intros Hm Hne. unfold formatText. rewrite Hm.
    destruct t as [|s|[|item items]|r]; eauto; [|congruence].
    destruct (String.eqb s EmptyString); eauto.
  - intros Hm. unfold formatText. now rewrite Hm.
Qed.

Lemma formatText_shape_witness :
  exists l, formatText (fun _ => "u") "n1" 100 100 single_conf
              (ConfigList [ItemString "a"; ItemString "b"]) = FSingle l.
Proof.
  exact (proj1 (proj2 (formatText_shape (fun _ => "u") "n1" 100 100 single_conf
                         (ConfigList [ItemString "a"; ItemString "b"])))
           eq_refl ltac:(discriminate)).
Defined.

(** X14.  In single mode a non-empty string, the one-element list of that string
    and a record with that value all give one record whose value and
    content are the string, with the first generated id (unless the record
    brings its own) at [(x - 10, y - 10)].  The string and the list give
    the same record; the record form overwrites a supplied position and
    content, and leaves [relateId], [draggable] and [editable] as
    supplied, undefined when they are not. *)
Theorem formatText_canonical (createUuid : nat -> string) (dataId : string)
    (dataX dataY : Z) (labelConfig : LabelConfig) (s : string) (r : TextInput) :
  multiple labelConfig = false -> s <> EmptyString -> in_value r = s ->
  let canonical :=
    mkFormatted (createUuid 0%nat) (Some dataId) s s (dataX - 10) (dataY - 10)
                (Some false) (Some true) false in
  formatText createUuid dataId dataX dataY labelConfig (ConfigString s)
    = FSingle canonical /\
  formatText createUuid dataId dataX dataY labelConfig (ConfigList [ItemString s])
    = FSingle canonical /\
  formatText createUuid dataId dataX dataY labelConfig (ConfigRecord r)
    = FSingle (mkFormatted (default (createUuid 0%nat) (in_id r)) (in_relateId r)
                 s s (dataX - 10) (dataY - 10)
                 (in_draggable r) (in_editable r) (default false (in_isFocus r))).
Proof.
  intros Hm Hs Hr canonical. unfold formatText. rewrite Hm, Hr.
  destruct (String.eqb_spec s EmptyString); [contradiction|].
  unfold canonical.
  repeat split; simpl; unfold formatted_string; simpl; rewrite ?Z.add_0_r;
    reflexivity.
Qed.

Lemma formatText_canonical_witness :
  formatText (fun _ => "u") "n1" 100 100 single_conf (ConfigString "hi") =
    FSingle (mkFormatted "u" (Some "n1") "hi" "hi" 90 90 (Some false) (Some true) false)
  /\
  formatText (fun _ => "u") "n1" 100 100 single_conf
    (ConfigRecord (mkTextInput None None "hi" (Some "rich") (Some 1) (Some 2)
                               None None None)) =
    FSingle (mkFormatted "u" None "hi" "hi" 90 90 None None false).
Proof.
  pose proof (formatText_canonical (fun _ => "u") "n1" 100 100 single_conf "hi"
                (mkTextInput None None "hi" (Some "rich") (Some 1) (Some 2)
                             None None None)
                eq_refl ltac:(discriminate) eq_refl) as (Hs & _ & Hr).
  split; [exact Hs|exact Hr].
Defined.

Lemma slice0_within {A : Type} (l : list A) (e : Z) :
  0 <= e <= Z.of_nat (length l) -> slice0 l e = take (Z.to_nat e) l.
Proof.
  intros [Hlo Hhi]. unfold slice0.
  destruct (Z.gtb_spec e (Z.of_nat (length l))); [lia|].
  destruct (Z.ltb_spec e 0); [lia|].
  destruct (Z.gtb_spec 0 e); [lia|]. reflexivity.
Qed.

Lemma slice0_prefix {A : Type} (l : list A) (m : Z) :
  0 <= m -> slice0 l (if m >? Z.of_nat (length l) then Z.of_nat (length l) else m)
            = take (Z.to_nat m) l.
Proof.
  intros Hm. destruct (Z.gtb_spec m (Z.of_nat (length l))) as [Hgt|Hle].
  - rewrite slice0_within by lia. rewrite Nat2Z.id.
    rewrite take_ge by lia. now rewrite take_ge by lia.
  - now rewrite slice0_within by lia.
Qed.

(** X15.  In multiple mode a list of [len] items is cut to its first [max]
    records when [max] is a count ([0 <= max]), and kept whole when [max]
    is absent; the [i]-th record kept is made from the [i]-th item, a
    string item sitting at [(x - 10, y - 10 + 20 i)]. *)
Theorem formatText_list_trimmed (createUuid : nat -> string) (dataId : string)
    (dataX dataY : Z) (labelConfig : LabelConfig) (items : list TextItem) :
  multiple labelConfig = true ->
  let textList := imap (formatted_item createUuid dataId dataX dataY) items in
  (forall m, max labelConfig = Some m -> 0 <= m ->
     formatText createUuid dataId dataX dataY labelConfig (ConfigList items)
       = FList (take (Z.to_nat m) textList) /\
     Z.of_nat (length (take (Z.to_nat m) textList))
       = Z.min m (Z.of_nat (length items))) /\
  (max labelConfig = None ->
   formatText createUuid dataId dataX dataY labelConfig (ConfigList items)
     = FList textList) /\
  (forall i s, items !! i = Some (ItemString s) ->
     textList !! i =
     Some (mkFormatted (createUuid i) (Some dataId) s s
             (dataX - 10) (dataY - 10 + 20 * Z.of_nat i)
             (Some false) (Some true) false)).
Proof.
  intros Hm textList. split; [|split].
  - intros m Hmax Hm0. split.
    + unfold formatText. rewrite Hm, Hmax. fold textList. now rewrite slice0_prefix.
    + rewrite length_take. unfold textList. rewrite length_imap. lia.
  - intros Hmax. unfold formatText. rewrite Hm, Hmax. fold textList.
    rewrite slice0_within by lia. rewrite Nat2Z.id. now rewrite take_ge by lia.
  - intros i s Hi. unfold textList. rewrite list_lookup_imap, Hi. reflexivity.
Qed.

Lemma formatText_list_trimmed_witness :
  formatText (fun k => string_of_index k) "n1" 100 100 (multi_conf (Some 2))
    (ConfigList [ItemString "a"; ItemString "b"; ItemString "c"]) =
  FList [mkFormatted "0" (Some "n1") "a" "a" 90 90 (Some false) (Some true) false;
         mkFormatted "1" (Some "n1") "b" "b" 90 110 (Some false) (Some true) false].
Proof.
  exact (proj1 (proj1 (formatText_list_trimmed (fun k => string_of_index k) "n1" 100 100
                         (multi_conf (Some 2))
                         [ItemString "a"; ItemString "b"; ItemString "c"] eq_refl)
                  2 eq_refl ltac:(lia))).
Defined.

(** X16.  The bound [max] is applied to a list only: in multiple mode a
    non-empty string or a record gives a list of one record whatever
    [max] is, also for [max = 0], and an absent text or the empty string
    gives the empty list. *)
Theorem formatText_multiple_scalar (createUuid : nat -> string) (dataId : string)
    (dataX dataY : Z) (labelConfig : LabelConfig) (s : string) (r : TextInput) :
  multiple labelConfig = true -> s <> EmptyString ->
  (exists l, formatText createUuid dataId dataX dataY labelConfig (ConfigString s)
             = FList [l] /\ f_value l = s) /\
  (exists l, formatText createUuid dataId dataX dataY labelConfig (ConfigRecord r)
             = FList [l] /\ f_value l = in_value r) /\
  formatText createUuid dataId dataX dataY labelConfig ConfigAbsent = FList [] /\
  formatText createUuid dataId dataX dataY labelConfig (ConfigString EmptyString)
    = FList [].
Proof.
  intros Hm Hs. unfold formatText. rewrite Hm.
  destruct (String.eqb_spec s EmptyString); [contradiction|].
  repeat split; eexists; split; reflexivity.
Qed.

Lemma formatText_multiple_scalar_witness :
  exists l, formatText (fun _ => "u") "n1" 100 100 (multi_conf (Some 0))
              (ConfigString "hi") = FList [l] /\ f_value l = "hi".
Proof.
  exact (proj1 (formatText_multiple_scalar (fun _ => "u") "n1" 100 100
                  (multi_conf (Some 0)) "hi"
                  (mkTextInput None None "x" None None None None None None)
                  eq_refl ltac:(discriminate))).
Defined.

(** ** Properties and styles *)

Lemma set_properties_same (n : BaseNodeModel) (p : gmap string PValue) :
  properties (data n) = p -> set_data n (set_properties (data n) p) = n.
Proof. intros <-. destruct n as [d tr sr mr ft fs]; destruct d; reflexivity. Qed.

(** X17.  Round trip: a property set under a key the map did not have is removed
    again by [deleteProperty], which gives back the node; deleting a key
    that is absent changes nothing; after a deletion the key is absent and
    every other key is as before. *)
Theorem deleteProperty_after_setProperty (formatData : PValue -> PValue)
    (n : BaseNodeModel) (key : string) (val : PValue) :
  properties (data n) !! key = None ->
  deleteProperty (fst (setProperty formatData n key val)) key = n /\
  deleteProperty n key = n /\
  (forall m k, properties (data (deleteProperty m k)) !! k = None /\
     forall k', k' <> k ->
       properties (data (deleteProperty m k)) !! k' = properties (data m) !! k').
Proof.
  intros Habsent. repeat split.
  - unfold deleteProperty, setProperty; simpl.
    rewrite delete_insert_eq, delete_id by exact Habsent.
    destruct n as [d tr sr mr ft fs]; destruct d; reflexivity.
  - unfold deleteProperty. rewrite delete_id by exact Habsent.
    now apply set_properties_same.
  - simpl. apply lookup_delete_eq.
  - intros k' Hne. simpl. now apply lookup_delete_ne.
Qed.

Lemma deleteProperty_after_setProperty_witness :
  deleteProperty (fst (setProperty (fun v => v) single_node "color" (PStr "red")))
    "color" = single_node.
Proof.
  exact (proj1 (deleteProperty_after_setProperty (fun v => v) single_node
                  "color" (PStr "red") ltac:(vm_compute; reflexivity))).
Defined.

(** X18.  Once [labelConfig] has been deleted from the properties, [addText]
    throws (it destructures the missing configuration), while moving
    treats the node as a single-label one. *)
Theorem deleteProperty_labelConfig (n : BaseNodeModel) (uuid : string)
    (confX confY : Z) :
  addText uuid (deleteProperty n "labelConfig") confX confY = None /\
  labelConfig_multiple (properties (data (deleteProperty n "labelConfig"))) = false.
Proof.
  unfold addText, destructure_labelConfig, labelConfig_multiple, deleteProperty.
  simpl. rewrite lookup_delete_eq. split; reflexivity.
Qed.

(** X19.  [setProperty(key, val)] and [setProperties] of the one-entry object
    [{key: val}] leave the same node and report the same old and new maps;
    they differ in the keys reported only.  [setProperties] of the empty
    object leaves the node as it is and reports no key. *)
Theorem setProperty_as_setProperties (formatData : PValue -> PValue)
    (n : BaseNodeModel) (key : string) (val : PValue) :
  let one := setProperty formatData n key val in
  let many := setProperties formatData n [(key, val)] in
  fst many = fst one /\
  change_preProperties (snd many) = change_preProperties (snd one) /\
  change_properties (snd many) = change_properties (snd one) /\
  change_id (snd many) = change_id (snd one) /\
  (change_keys (snd many) = [key] \/ change_keys (snd many) = []) /\
  fst (setProperties formatData n []) = n /\
  change_keys (snd (setProperties formatData n [])) = [].
Proof.
  cbv zeta. unfold setProperties, setProperty; simpl.
  repeat split.
  - destruct (is_update (properties (data n)) (key, val)); simpl; auto.
  - now apply set_properties_same.
Qed.

Lemma spread_over_empty_lookup (entries : list (string * PValue)) (k : string) :
  ~ In k (map fst entries) -> spread_over ∅ entries !! k = None.
Proof.
  intros Hnot. rewrite spread_over_lookup_other by exact Hnot. apply lookup_empty.
Qed.

(** X20.  The three style mutators differ on the keys that are not supplied:
    [setStyle] and [setStyles] keep them, [updateStyles] drops them.  On a
    supplied key all of them store the copy of the supplied value, and
    [setStyles] of a one-entry object is [setStyle]. *)
Theorem style_mutators (formatData : PValue -> PValue) (style : gmap string PValue)
    (styles : list (string * PValue)) :
  List.NoDup (map fst styles) ->
  (forall k v, In (k, v) styles ->
     setStyles formatData style styles !! k = Some (formatData v) /\
     updateStyles formatData style styles !! k = Some (formatData v)) /\
  (forall k, ~ In k (map fst styles) ->
     setStyles formatData style styles !! k = style !! k /\
     updateStyles formatData style styles !! k = None) /\
  (forall key val,
     setStyles formatData style [(key, val)] = setStyle formatData style key val /\
     setStyle formatData style key val !! key = Some (formatData val) /\
     forall k, k <> key -> setStyle formatData style key val !! k = style !! k).
Proof.
  intros Hnd. unfold setStyles, updateStyles, setStyle. repeat split.
  - apply spread_over_lookup_entry; [now rewrite map_map|].
    apply in_map_iff. exists (k, v). split; [reflexivity|assumption].
  - apply spread_over_lookup_entry; [now rewrite map_map|].
    apply in_map_iff. exists (k, v). split; [reflexivity|assumption].
  - apply spread_over_lookup_other. now rewrite map_map.
  - apply spread_over_empty_lookup. now rewrite map_map.
  - apply lookup_insert_eq.
  - intros k Hne. apply lookup_insert_ne. congruence.
Qed.

Lemma style_mutators_witness :
  setStyles (fun v => v) {[ "fill" := PStr "red" ]} [("stroke", PStr "blue")]
    !! "fill" = Some (PStr "red") /\
  updateStyles (fun v => v) {[ "fill" := PStr "red" ]} [("stroke", PStr "blue")]
    !! "fill" = None.
Proof.
  destruct (proj1 (proj2 (style_mutators (fun v => v) {[ "fill" := PStr "red" ]}
                            [("stroke", PStr "blue")]
                            ltac:(repeat constructor; simpl; tauto)))
              "fill" ltac:(simpl; intuition discriminate)) as [Hset Hupd].
  split; [rewrite Hset; reflexivity|exact Hupd].
Defined.

(** ** Anchors: lookup by id, rotation, the circle *)

Lemma string_of_index_inj (i j : nat) :
  string_of_index i = string_of_index j -> i = j.
Proof.
  unfold string_of_index. intros Heq.
  apply (f_equal NilEmpty.uint_of_string) in Heq.
  rewrite !NilEmpty.usu in Heq. injection Heq as Heq.
  apply (f_equal Nat.of_uint) in Heq. now rewrite !Unsigned.of_to in Heq.
Qed.

Lemma append_inj_r (p a b : string) : (p ++ a = p ++ b)%string -> a = b.
Proof. induction p as [|c p IH]; simpl; [auto|]. intros [= H]. auto. Qed.

Lemma default_anchor_id_inj (nodeId : string) (i j : nat) :
  default_anchor_id nodeId i = default_anchor_id nodeId j -> i = j.
Proof.
  unfold default_anchor_id. intros Heq.
  apply append_inj_r in Heq. apply (append_inj_r "_") in Heq.
  now apply string_of_index_inj.
Qed.

Lemma find_generated_id (nodeId : string) (l : list AnchorConfig) (base idx : nat) :
  (forall k a, l !! k = Some a ->
     anchor_id a = Some (default_anchor_id nodeId (base + k))) ->
  List.find (has_id (default_anchor_id nodeId (base + idx))) l = l !! idx.
Proof.
  revert base idx; induction l as [|a l IH]; intros base idx Hids; simpl.
  - now destruct idx.
  - pose proof (Hids 0%nat a eq_refl) as Ha. unfold has_id at 1. rewrite Ha.
    destruct idx as [|idx].
    + now rewrite String.eqb_refl.
    + destruct (String.eqb_spec (default_anchor_id nodeId (base + 0))
                                (default_anchor_id nodeId (base + S idx))) as [Heq|_].
      * apply default_anchor_id_inj in Heq. lia.
      * simpl. replace (base + S idx)%nat with (S base + idx)%nat by lia.
        apply IH. intros k a' Hk.
        rewrite (Hids (S k) a' Hk). f_equal. f_equal. lia.
Qed.

Lemma anchors_lookup (Math_cos Math_sin : Z -> Z)
    (hook : NodeData -> list AnchorConfig) (d : NodeData) (k : nat) :
  anchors Math_cos Math_sin hook d !! k =
  rotate_anchor Math_cos Math_sin d <$> getAnchorsByOffset hook d !! k.
Proof. unfold anchors. apply list_lookup_fmap. Qed.

Lemma getAnchorInfo_generated (Math_cos Math_sin : Z -> Z)
    (hook : NodeData -> list AnchorConfig) (d : NodeData) (idx : nat) :
  (forall k a, getAnchorsByOffset hook d !! k = Some a ->
     anchor_id a = Some (default_anchor_id (id d) k)) ->
  getAnchorInfo Math_cos Math_sin hook d (Some (default_anchor_id (id d) idx)) =
  anchors Math_cos Math_sin hook d !! idx.
Proof.
  intros Hids. unfold getAnchorInfo.
  apply (find_generated_id (id d) _ 0 idx). intros k a Hk.
  rewrite anchors_lookup in Hk.
  destruct (getAnchorsByOffset hook d !! k) as [a0|] eqn:Ha0; [|discriminate].
  injection Hk as <-. simpl. exact (Hids k a0 Ha0).
Qed.

(** X21.  Round trip between the offset list and the lookup by id: when no entry
    of a non-empty offset list brings an id of its own, looking up the
    generated id [{id}_{idx}] returns the anchor of entry [idx] as the
    getter [anchors] lists it, and nothing for an index past the list; a
    nil id finds nothing. *)
Theorem getAnchorInfo_of_offset (Math_cos Math_sin : Z -> Z)
    (hook : NodeData -> list AnchorConfig) (d : NodeData) (idx : nat) :
  anchorsOffset d <> [] ->
  Forall (fun el => supplied_id el = None) (anchorsOffset d) ->
  getAnchorInfo Math_cos Math_sin hook d (Some (default_anchor_id (id d) idx)) =
    anchors Math_cos Math_sin hook d !! idx /\
  (forall el, anchorsOffset d !! idx = Some el ->
     exists a, getAnchorInfo Math_cos Math_sin hook d
                 (Some (default_anchor_id (id d) idx)) = Some a /\
               anchor_id a = Some (default_anchor_id (id d) idx)) /\
  ((length (anchorsOffset d) <= idx)%nat ->
   getAnchorInfo Math_cos Math_sin hook d (Some (default_anchor_id (id d) idx)) = None) /\
  getAnchorInfo Math_cos Math_sin hook d None = None.
Proof.
  intros Hne Hall.
  assert (forall k a, getAnchorsByOffset hook d !! k = Some a ->
            anchor_id a = Some (default_anchor_id (id d) k)) as Hids.
  { intros k a. rewrite (getAnchorsByOffset_offsets hook d Hne), list_lookup_imap.
    destruct (anchorsOffset d !! k) as [el|] eqn:Hel; [|discriminate].
    intros [= <-]. rewrite anchor_of_offset_spec. simpl.
    rewrite Forall_forall in Hall.
    rewrite (Hall el); [reflexivity|].
    apply list_elem_of_lookup. eauto. }
  pose proof (getAnchorInfo_generated Math_cos Math_sin hook d idx Hids) as Hfind.
  repeat split.
  - exact Hfind.
  - intros el Hel. rewrite Hfind, anchors_lookup.
    rewrite (getAnchorsByOffset_offsets hook d Hne), list_lookup_imap, Hel. simpl.
    eexists. split; [reflexivity|]. simpl. rewrite anchor_of_offset_spec. simpl.
    rewrite Forall_forall in Hall. rewrite (Hall el); [reflexivity|].
    apply list_elem_of_lookup. eauto.
  - intros Hlen. rewrite Hfind, anchors_lookup.
    rewrite (getAnchorsByOffset_offsets hook d Hne), list_lookup_imap.
    now rewrite (lookup_ge_None_2 _ _ Hlen).
Qed.

Lemma getAnchorInfo_of_offset_witness :
  getAnchorInfo cos_deg sin_deg getDefaultAnchor_base tuple_data (Some "n1_1") =
    Some (mkAnchor (Some "n1_1") 100 140) /\
  getAnchorInfo cos_deg sin_deg getDefaultAnchor_base tuple_data (Some "n1_2") = None.
Proof.
  assert (anchorsOffset tuple_data <> []) as Hne by discriminate.
  assert (Forall (fun el => supplied_id el = None) (anchorsOffset tuple_data)) as Hall
    by (repeat constructor).
  split.
  - exact (eq_trans
             (proj1 (getAnchorInfo_of_offset cos_deg sin_deg getDefaultAnchor_base
                       tuple_data 1 Hne Hall)) eq_refl).
  - exact (proj1 (proj2 (proj2
             (getAnchorInfo_of_offset cos_deg sin_deg getDefaultAnchor_base
                tuple_data 2 Hne Hall))) ltac:(simpl; lia)).
Defined.

(** X23.  A node without offsets takes its anchors from the default generator:
    none for the base class, and for a circle of radius [r] the four points
    [{id}_0] to [{id}_3] above, right of, below and left of the centre, each
    at distance [r].  Looking one of these ids up returns the anchor of that
    index. *)
Theorem circle_default_anchors (Math_cos Math_sin : Z -> Z) (r : Z) (d : NodeData) :
  anchorsOffset d = [] ->
  getAnchorsByOffset getDefaultAnchor_base d = [] /\
  getAnchorsByOffset (getDefaultAnchor_circle r) d =
    [ mkAnchor (Some (default_anchor_id (id d) 0)) (x d) (y d - r);
      mkAnchor (Some (default_anchor_id (id d) 1)) (x d + r) (y d);
      mkAnchor (Some (default_anchor_id (id d) 2)) (x d) (y d + r);
      mkAnchor (Some (default_anchor_id (id d) 3)) (x d - r) (y d) ] /\
  (forall a, In a (getAnchorsByOffset (getDefaultAnchor_circle r) d) ->
     distance2 d a = r * r) /\
  (forall idx,
     getAnchorInfo Math_cos Math_sin (getDefaultAnchor_circle r) d
       (Some (default_anchor_id (id d) idx)) =
     anchors Math_cos Math_sin (getDefaultAnchor_circle r) d !! idx).
Proof.
  intros Hempty. unfold getAnchorsByOffset. rewrite Hempty.
  repeat split.
  - unfold getDefaultAnchor_circle, distance2.
    intros a [<-|[<-|[<-|[<-|[]]]]]; simpl; ring.
  - intros idx. apply getAnchorInfo_generated.
    unfold getAnchorsByOffset. rewrite Hempty. unfold getDefaultAnchor_circle.
    intros [|[|[|[|k]]]] a; simpl; intros [= <-]; reflexivity.
Qed.

Lemma circle_default_anchors_witness :
  anchors cos_deg sin_deg (getDefaultAnchor_circle 50) circle_data =
    [ mkAnchor (Some "c1_0") 150 100; mkAnchor (Some "c1_1") 100 150;
      mkAnchor (Some "c1_2") 50 100; mkAnchor (Some "c1_3") 100 50 ] /\
  getAnchorInfo cos_deg sin_deg (getDefaultAnchor_circle 50) circle_data (Some "c1_2")
    = Some (mkAnchor (Some "c1_2") 50 100).
Proof.
  split; [reflexivity|].
  exact (eq_trans
           (proj2 (proj2 (proj2 (circle_default_anchors cos_deg sin_deg 50 circle_data
                                   eq_refl))) 2%nat) eq_refl).
Defined.

(** ** Connection rules: the whole result, and the hooks of the base class *)

Lemma connect_loop_result (this source target : NodeData)
    (sa ta : option AnchorConfig) (edgeId : option string)
    (rules : list ConnectRule) (i : nat) :
  let ok rule := validate rule this source target sa ta edgeId in
  let out := connect_loop rules i this source target sa ta edgeId in
  isAllPass (fst out) = forallb ok rules /\
  (length (snd out) <= length rules)%nat /\
  (isAllPass (fst out) = true ->
   msg (fst out) = EmptyString /\ length (snd out) = length rules) /\
  (isAllPass (fst out) = false ->
   exists r, In r rules /\ ok r = false /\ msg (fst out) = message r).
Proof.
  cbv zeta. revert i; induction rules as [|rule rest IH]; intros i; simpl.
  - repeat split; auto. discriminate.
  - destruct (validate rule this source target sa ta edgeId) eqn:Hrule; simpl.
    + specialize (IH (S i)).
      destruct (connect_loop rest (S i) this source target sa ta edgeId) as [r log].
      simpl in *. destruct IH as (Hall & Hlen & Hpass & Hfail).
      repeat split; auto; try lia.
      * apply Hpass; assumption.
      * f_equal. apply Hpass; assumption.
      * intros Hf. destruct (Hfail Hf) as (r0 & Hin & Hr0 & Hmsg).
        exists r0. auto.
    + repeat split; auto; try lia; try discriminate.
      intros _. exists rule. auto.
Qed.

(** X24.  The result of a check says whether every rule of the chain passes:
    [isAllPass] is the conjunction of the answers of all the rules; when it
    is true the message is empty and every rule was asked, when it is false
    the message is that of a failing rule of the chain; never more
    predicates are called than the chain has rules. *)
Theorem connect_result_characterised (hook : RulesHook) (n : BaseNodeModel)
    (other : NodeData) (sa ta : option AnchorConfig) (edgeId : option string) :
  let outS := isAllowConnectedAsSource hook n other sa ta edgeId in
  let thisS := data (fst (fst outS)) in
  let okS rule := validate rule thisS thisS other sa ta edgeId in
  let outT := isAllowConnectedAsTarget hook n other sa ta edgeId in
  let thisT := data (fst (fst outT)) in
  let okT rule := validate rule thisT other thisT sa ta edgeId in
  (isAllPass (snd (fst outS)) = forallb okS (source_chain hook n) /\
   (length (snd outS) <= length (source_chain hook n))%nat /\
   (isAllPass (snd (fst outS)) = true ->
    msg (snd (fst outS)) = EmptyString /\
    length (snd outS) = length (source_chain hook n)) /\
   (isAllPass (snd (fst outS)) = false ->
    exists r, In r (source_chain hook n) /\ okS r = false /\
              msg (snd (fst outS)) = message r)) /\
  (isAllPass (snd (fst outT)) = forallb okT (target_chain hook n) /\
   (length (snd outT) <= length (target_chain hook n))%nat /\
   (isAllPass (snd (fst outT)) = true ->
    msg (snd (fst outT)) = EmptyString /\
    length (snd outT) = length (target_chain hook n)) /\
   (isAllPass (snd (fst outT)) = false ->
    exists r, In r (target_chain hook n) /\ okT r = false /\
              msg (snd (fst outT)) = message r)).
Proof.
  cbv zeta.
  rewrite isAllowConnectedAsSource_unfold, isAllowConnectedAsTarget_unfold.
  cbv zeta; cbn [fst snd]. split; apply connect_loop_result.
Qed.

Lemma connect_result_characterised_witness :
  let out := isAllowConnectedAsSource getConnectedSourceRules
               (set_sourceRules single_node [rule_yes; rule_no; rule_yes])
               (data multi_node) None None None in
  exists r, In r [rule_yes; rule_no; rule_yes] /\ msg (snd (fst out)) = message r.
Proof.
  destruct (proj2 (proj2 (proj2 (proj1
              (connect_result_characterised getConnectedSourceRules
                 (set_sourceRules single_node [rule_yes; rule_no; rule_yes])
                 (data multi_node) None None None)))) eq_refl)
    as (r & Hin & _ & Hmsg).
  exists r. split; [exact Hin|exact Hmsg].
Defined.

(** X25.  With the hooks of the base class a check as source changes the flag
    [hasSetSourceRules] of the node and nothing else; in particular the
    flag of the target chain is not touched, so the two chains are
    independent.  Checking again gives the same result, the same calls and
    the same node.  The same holds of a check as target. *)
Theorem base_hooks_checks (n : BaseNodeModel) (other : NodeData)
    (sa ta : option AnchorConfig) (edgeId : option string) :
  let outS := isAllowConnectedAsSource getConnectedSourceRules n other sa ta edgeId in
  let outT := isAllowConnectedAsTarget getConnectedTargetRules n other sa ta edgeId in
  fst (fst outS) = set_hasSetSourceRules n true /\
  hasSetTargetRules (fst (fst outS)) = hasSetTargetRules n /\
  isAllowConnectedAsSource getConnectedSourceRules (fst (fst outS)) other sa ta edgeId
    = outS /\
  fst (fst outT) = set_hasSetTargetRules n true /\
  hasSetSourceRules (fst (fst outT)) = hasSetSourceRules n /\
  isAllowConnectedAsTarget getConnectedTargetRules (fst (fst outT)) other sa ta edgeId
    = outT.
Proof.
  cbv zeta. destruct n as [d tr sr mr ft fs].
  unfold isAllowConnectedAsSource, isAllowConnectedAsTarget,
    getConnectedSourceRules, getConnectedTargetRules; simpl.
  destruct ft, fs; simpl;
    destruct (connect_loop sr 0 d d other sa ta edgeId) as [rS lS] eqn:HS;
    destruct (connect_loop tr 0 d other d sa ta edgeId) as [rT lT] eqn:HT;
    simpl; rewrite ?HS, ?HT; repeat split.
Qed.

(** ** The snapshot after a move, and [resize] *)

Lemma project_shift (deltaX deltaY : Z) (l : LabelType) :
  project_label (shift_label deltaX deltaY l) = shift_data deltaX deltaY (project_label l).
Proof. reflexivity. Qed.

(** X26.  Taking the snapshot commutes with moving: after a move that ignores the
    rules, [getData] gives the snapshot of before with [x], [y] and the
    position of every label in [text] advanced by the delta; an omitted
    text stays omitted. *)
Theorem getData_after_move (overlapIncrease : bool) (graphRules : list NodeMoveRule)
    (n : BaseNodeModel) (deltaX deltaY : Z) :
  text_shape_ok (data n) ->
  let before := getData overlapIncrease n in
  getData overlapIncrease (fst (move graphRules n deltaX deltaY true)) =
  mkSnapshot (snap_id before) (snap_type before)
             (snap_x before + deltaX) (snap_y before + deltaY)
             (snap_properties before) (snap_rotate before) (snap_zIndex before)
             (shift_snapshot_text deltaX deltaY (snap_text before)).
Proof.
  intros Hok. rewrite move_ignoring_rules by exact Hok. cbn [fst].
  unfold getData, with_position; simpl. f_equal.
  destruct (text (data n)) as [l|ls|]; simpl; auto.
  - destruct (String.eqb (label_value l) EmptyString); reflexivity.
  - now rewrite !map_map.
Qed.

Lemma getData_after_move_witness :
  snap_text (getData false (fst (move [] single_node 5 6 true))) =
    Some (SnapSingle (mkTextData 95 96 "hi" "hi")).
Proof.
  exact (f_equal snap_text
           (getData_after_move false [] single_node 5 6 ltac:(vm_compute; reflexivity))).
Defined.


